(** * mcp-christensen: case-study matching and fidelity scoring

    A shallow embedding of the decision logic of the Christensen persona
    server:

    - [Disruption]: the [CANONICAL_CASES] table and [matchToCaseStudies]
      (frameworks/disruption.ts);
    - [CaseStudyTool]: the input schema's case names and
      [getCaseStudyDetail] (tools/case-study.ts);
    - [Fidelity]: the marker tables, [findMatches] and
      [calculateFidelityScore] (validation/fidelity-check.ts).

    JavaScript strings are modelled as [string]; a character stands for one
    UTF-16 code unit below 256, so the case mappings are those of the
    Latin-1 range. *)

From Stdlib Require Import List Bool Arith ZArith Lia Sorting.Sorted Sorting.Permutation.
From Stdlib Require Import Strings.Ascii Strings.String Numbers.DecimalString.
Import ListNotations.

Open Scope list_scope.
Open Scope string_scope.
Open Scope nat_scope.

(* ================================================================= *)
(** ** JavaScript string primitives *)

Module Js.

Definition code (c : ascii) : nat := nat_of_ascii c.

(** The double quote, for text that contains one. *)
Definition dq : string := String (ascii_of_nat 34) EmptyString.

(** The line feed. *)
Definition nl : string := String (ascii_of_nat 10) EmptyString.

Definition inRange (lo hi n : nat) : bool := (lo <=? n) && (n <=? hi).

(** [String.prototype.toLowerCase] on one code unit: A-Z, and the
    upper-case letters U+00C0..U+00DE (U+00D7, the multiplication sign,
    excepted), move up by 32. *)
Definition lowerChar (c : ascii) : ascii :=
  let n := code c in
  if inRange 65 90 n || (inRange 192 222 n && negb (n =? 215))
  then ascii_of_nat (n + 32) else c.

Fixpoint toLowerCase (s : string) : string :=
  match s with
  | EmptyString => EmptyString
  | String c s' => String (lowerChar c) (toLowerCase s')
  end.

(** [s.slice(b, e)] for 0 <= b and 0 <= e: the code units from index [b]
    up to, not including, index [e], clipped to the string. *)
Definition slice (s : string) (b e : nat) : string := substring b (e - b) s.

(** [s.includes(sub)]. *)
Fixpoint includes (s sub : string) : bool :=
  if prefix sub s then true
  else match s with
       | EmptyString => false
       | String _ s' => includes s' sub
       end.

(** White space and line terminators of the range: TAB, LF, VT, FF, CR,
    SP and NBSP. *)
Definition isWhiteSpace (c : ascii) : bool :=
  let n := code c in inRange 9 13 n || (n =? 32) || (n =? 160).

Fixpoint trimStart (s : string) : string :=
  match s with
  | EmptyString => EmptyString
  | String c s' => if isWhiteSpace c then trimStart s' else s
  end.

Fixpoint trimEnd (s : string) : string :=
  match s with
  | EmptyString => EmptyString
  | String c s' =>
      match trimEnd s' with
      | EmptyString => if isWhiteSpace c then EmptyString
                       else String c EmptyString
      | t => String c t
      end
  end.

(** [s.trim()]. *)
Definition trim (s : string) : string := trimEnd (trimStart s).

(** [xs.join(sep)]. *)
Fixpoint join (sep : string) (xs : list string) : string :=
  match xs with
  | [] => EmptyString
  | [x] => x
  | x :: rest => x ++ sep ++ join sep rest
  end.

(** A number in a template literal: its decimal digits. *)
Definition ofNat (n : nat) : string := NilEmpty.string_of_uint (Nat.to_uint n).

(** [xs.sort(cmp)].  The sort is stable (ECMAScript 2019), so with a
    consistent comparator its result is that of a stable insertion sort:
    an element goes in front of the first element it does not exceed. *)
Fixpoint insert {A : Type} (cmp : A -> A -> Z) (x : A) (l : list A) : list A :=
  match l with
  | [] => [x]
  | y :: l' => if (cmp x y <=? 0)%Z then x :: y :: l' else y :: insert cmp x l'
  end.

Fixpoint sort {A : Type} (cmp : A -> A -> Z) (l : list A) : list A :=
  match l with
  | [] => []
  | x :: l' => insert cmp x (sort cmp l')
  end.

(** The property names that every object inherits from
    [Object.prototype]. *)
Definition objectPrototypeKeys : list string :=
  [ "constructor"; "__defineGetter__"; "__defineSetter__"; "hasOwnProperty";
    "__lookupGetter__"; "__lookupSetter__"; "isPrototypeOf";
    "propertyIsEnumerable"; "toString"; "valueOf"; "__proto__";
    "toLocaleString" ].

(** [obj[key]] on an object literal: an own property, a member inherited
    from [Object.prototype] (a function or the prototype itself, truthy and
    with none of the table's fields), or [undefined]. *)
Inductive property (A : Type) :=
| Own (v : A)
| Inherited
| Undefined.
Arguments Own {A} v.
Arguments Inherited {A}.
Arguments Undefined {A}.

Definition getProperty {A : Type} (obj : list (string * A)) (key : string)
  : property A :=
  match find (fun kv => String.eqb (fst kv) key) obj with
  | Some kv => Own (snd kv)
  | None =>
      if existsb (String.eqb key) objectPrototypeKeys then Inherited
      else Undefined
  end.

(** What a call does: it returns a value or throws. *)
Inductive error := TypeError.
Inductive completion (A : Type) :=
| Return (v : A)
| Throw (e : error).
Arguments Return {A} v.
Arguments Throw {A} e.

(** [sub] occurs in [s] as a contiguous run of characters. *)
Definition occursIn (sub s : string) : Prop :=
  exists pre post, s = pre ++ sub ++ post.

End Js.

(* ================================================================= *)
(** ** frameworks/types.ts *)

Module Types.

Inductive ConfidenceLevel := high | medium | low | uncertain.

Record CaseStudyReference := {
  name : string;
  pattern : string;
  relevance : string;
  matchStrength : ConfidenceLevel
}.

End Types.

(* ================================================================= *)
(** ** frameworks/disruption.ts: case study patterns *)

Module Disruption.

Import Types(ConfidenceLevel, high, medium, low, uncertain, CaseStudyReference).

Record CaseStudyPattern := {
  name : string;
  pattern : string;
  story : string;
  signals : list string;
  lessonsForToday : string
}.

(** The arrows of the disk-drive story lie outside the modelled range of
    code units and are kept as the bytes of the source file; the story is
    only ever copied into a report. *)

Definition steel_minimills : CaseStudyPattern :=
  {| name := "Steel Mini-Mills";
     pattern := "Low-end disruption with asymmetric motivation";
     story := Js.trim ("
Integrated steel mills (US Steel, Bethlehem) dominated the industry but
had high fixed costs. Mini-mills (Nucor) entered making rebar - the
lowest-margin product. Integrated mills were RELIEVED to exit rebar.

Mini-mills improved and moved to angle iron. Integrated mills were again
relieved. Then structural steel. Then sheet steel. At each tier, the
rational response for integrated mills was to retreat upmarket.

By the time mini-mills threatened their core products, integrated mills
had neither the cost structure nor the capabilities to respond.
    ");
     signals :=
       [ "Incumbent has high fixed-cost structure";
         "Low-end segments are unattractive margin-wise";
         "Entrant has fundamentally different cost structure";
         "Entrant quality improves over time";
         "Incumbent 'rationally' cedes each tier" ];
     lessonsForToday :=
       "Watch for entrants that incumbents are happy to ignore. Their improvement trajectory may lead straight to your core." |}.

Definition disk_drives : CaseStudyPattern :=
  {| name := "Disk Drive Generations";
     pattern := "New-market disruption with different value network";
     story := Js.trim ("
Each generation of smaller disk drives was 'worse' by existing metrics
(capacity, cost per megabyte) but enabled entirely new applications.

14" ++ Js.dq ++ " drives → mainframes
8" ++ Js.dq ++ " drives → minicomputers
5.25" ++ Js.dq ++ " drives → desktop PCs
3.5" ++ Js.dq ++ " drives → laptops
2.5" ++ Js.dq ++ " and smaller → portable devices

Each time, incumbents saw the new format as inferior. Their customers
didn't want smaller drives with less capacity. But new customers in
new applications valued portability, power efficiency, and form factor
over raw capacity.
    ");
     signals :=
       [ "New form factor or approach";
         "Different performance dimensions valued";
         "Enables new use cases existing solutions can't serve";
         "Existing customers explicitly don't want it";
         "New value network with different profit formula" ];
     lessonsForToday :=
       "Your best customers telling you they don't want something may be a signal it will disrupt you, not a signal it's irrelevant." |}.

Definition honda_motorcycles : CaseStudyPattern :=
  {| name := "Honda Motorcycles in America";
     pattern := "Emergent strategy through market learning";
     story := Js.trim ("
Honda came to America in 1959 planning to sell large motorcycles to
compete with Harley-Davidson. Sales were poor - Americans saw Japanese
bikes as inferior for highway riding.

Honda executives rode small 50cc Supercubs around Los Angeles for
personal errands. People kept asking where to buy them. Sears wanted
to carry them. Honda initially resisted - these weren't 'real' motorcycles.

Eventually they recognized the market was teaching them their strategy.
The Supercub created a new market of people who would never buy a
Harley - and Honda built capabilities that later let them move upmarket.
    ");
     signals :=
       [ "Initial strategy hypothesis doesn't match market reality";
         "Unexpected customer segment emerges";
         "Product finds use cases different from intended";
         "Willingness to learn and adapt";
         "Creates new category rather than competing in existing one" ];
     lessonsForToday :=
       "The market often knows your strategy better than you do. Pay attention to who actually buys - especially unexpected customers." |}.

Definition intel_microprocessors : CaseStudyPattern :=
  {| name := "Intel's Pivot to Microprocessors";
     pattern := "Capability migration through process investment";
     story := Js.trim ("
Intel dominated memory chips in the 1970s but faced brutal competition
from Japanese manufacturers who had lower costs and higher quality.
Andy Grove and Gordon Moore recognized memory was becoming a commodity.

Intel survived by migrating to microprocessors - not because they had
unique resources (Japanese firms could acquire those) but because their
PROCESSES for chip design and manufacturing transferred to processors.

The key insight: Resources are acquirable. Processes are developed
over years and can't be bought. Intel's survival came from recognizing
which of their capabilities (processes) were transferable.
    ");
     signals :=
       [ "Core business facing commoditization or decline";
         "Adjacent opportunity emerging";
         "Process capabilities (not just resources) are transferable";
         "Requires fundamental priority shift";
         "New market values same underlying capabilities differently" ];
     lessonsForToday :=
       "When your market is dying, ask what processes you've built that could transfer to new opportunities. Don't just count your resources." |}.

(** [CANONICAL_CASES], as [Object.entries] enumerates it: the own string
    keys in declaration order. *)
Definition CANONICAL_CASES : list (string * CaseStudyPattern) :=
  [ ("steel_minimills", steel_minimills);
    ("disk_drives", disk_drives);
    ("honda_motorcycles", honda_motorcycles);
    ("intel_microprocessors", intel_microprocessors) ].

(** The test of the innermost [if] of [matchToCaseStudies]. *)
Definition signalTest (userLower caseSignal : string) : bool :=
  Js.includes userLower (Js.slice (Js.toLowerCase caseSignal) 0 20)
  || Js.includes (Js.toLowerCase caseSignal) (Js.slice userLower 0 20).

(** The loop over [caseStudy.signals]: it leaves at the first case signal
    that passes the test, which is the one pushed on [matchedSignals]. *)
Fixpoint innerLoop (userLower : string) (caseSignals : list string)
  : option string :=
  match caseSignals with
  | [] => None
  | caseSignal :: rest =>
      if signalTest userLower caseSignal then Some caseSignal
      else innerLoop userLower rest
  end.

(** The loop over the user's signals, threading [matchCount] and
    [matchedSignals]. *)
Fixpoint outerLoop (userSignals : list string) (caseStudy : CaseStudyPattern)
  (st : nat * list string) : nat * list string :=
  match userSignals with
  | [] => st
  | userSignal :: rest =>
      let st' :=
        match innerLoop (Js.toLowerCase userSignal) (signals caseStudy) with
        | Some caseSignal => (S (fst st), (snd st ++ [caseSignal])%list)
        | None => st
        end in
      outerLoop rest caseStudy st'
  end.

Definition strengthOf (matchCount : nat) : ConfidenceLevel :=
  if 3 <=? matchCount then high
  else if 2 <=? matchCount then medium
  else low.

(** One turn of the loop over the entries: what it pushes on [matches]. *)
Definition visitCase (userSignals : list string)
  (entry : string * CaseStudyPattern) : list CaseStudyReference :=
  let caseStudy := snd entry in
  let '(matchCount, matchedSignals) := outerLoop userSignals caseStudy (0, []) in
  if 0 <? matchCount then
    [ {| Types.name := name caseStudy;
         Types.pattern := pattern caseStudy;
         Types.relevance :=
           "Matches " ++ Js.ofNat matchCount ++ " signals: "
           ++ Js.join "; " matchedSignals;
         Types.matchStrength := strengthOf matchCount |} ]
  else [].

Definition order (c : ConfidenceLevel) : Z :=
  match c with
  | high => 0
  | medium => 1
  | low => 2
  | uncertain => 3
  end.

Definition compareFn (a b : CaseStudyReference) : Z :=
  (order (Types.matchStrength a) - order (Types.matchStrength b))%Z.

(** [matches] as it stands before the final sort. *)
Definition collectMatches (userSignals : list string) : list CaseStudyReference :=
  flat_map (visitCase userSignals) CANONICAL_CASES.

Definition matchToCaseStudies (userSignals : list string)
  : list CaseStudyReference :=
  Js.sort compareFn (collectMatches userSignals).

End Disruption.

(* ================================================================= *)
(** ** tools/case-study.ts *)

Module CaseStudyTool.

Import Disruption(CaseStudyPattern, CANONICAL_CASES).

(** The members of the [z.enum] of [caseStudySchema.caseName]. *)
Definition caseNameEnum : list string :=
  [ "steel_minimills"; "disk_drives"; "milkshake"; "honda_motorcycles";
    "intel_microprocessors" ].

Record CaseStudyExtension := {
  keyTakeaways : list string;
  commonMisapplications : list string;
  questionsToAsk : list string
}.

Definition ext_steel_minimills : CaseStudyExtension :=
  {| keyTakeaways :=
       [ "Asymmetric motivation is the key - incumbents are RELIEVED to cede low-margin segments";
         "The retreat looks rational at every step, but the trajectory leads to disaster";
         "Cost structure differences create permanently different incentives";
         "Quality improvement in the 'inferior' technology is the warning sign" ];
     commonMisapplications :=
       [ "Assuming any low-cost competitor is disruptive (sustaining low-cost is different)";
         "Ignoring the improvement trajectory of the entrant";
         "Forgetting that mini-mills had fundamentally different cost structures, not just lower prices" ];
     questionsToAsk :=
       [ "Does the entrant have a fundamentally different cost structure?";
         "Are incumbents relieved or threatened by losing this segment?";
         "Is the entrant improving along a trajectory toward mainstream needs?";
         "What's the next tier the entrant might target?" ] |}.

Definition ext_disk_drives : CaseStudyExtension :=
  {| keyTakeaways :=
       [ "Existing customers can actively mislead you about future threats";
         "New value networks have different performance metrics entirely";
         "Being 'worse' on current metrics can mean being 'better' on future metrics";
         "The pattern repeated across 5 generations - it's predictable" ];
     commonMisapplications :=
       [ "Assuming all new form factors are disruptive";
         "Ignoring that disruption requires a new value network, not just new technology";
         "Forgetting the role of enabled applications in driving adoption" ];
     questionsToAsk :=
       [ "What new applications does this enable that weren't possible before?";
         "What performance dimensions matter in this new context?";
         "Are existing customers explicitly saying they don't want this?";
         "What value network would this create or serve?" ] |}.

Definition ext_milkshake : CaseStudyExtension :=
  {| keyTakeaways :=
       [ "The job, not the customer, is the unit of analysis";
         "Same product can be hired for completely different jobs";
         "Circumstance dramatically changes the job to be done";
         "Competition is defined by the job, not the product category" ];
     commonMisapplications :=
       [ "Treating all customer feedback as equivalent regardless of circumstance";
         "Segmenting by demographics instead of jobs";
         "Assuming competitors are other products in the same category" ];
     questionsToAsk :=
       [ "What job is being done in THIS specific circumstance?";
         "What would the customer hire if your product didn't exist?";
         "Are there different jobs for different times/places/contexts?";
         "What are the functional, emotional, and social dimensions?" ] |}.

Definition ext_honda_motorcycles : CaseStudyExtension :=
  {| keyTakeaways :=
       [ "Initial strategy hypotheses are often wrong";
         "Markets teach you your strategy if you're willing to learn";
         "Unexpected customer segments can be more valuable than target segments";
         "Creating a new category avoids head-to-head competition" ];
     commonMisapplications :=
       [ "Using this to justify pivoting without market evidence";
         "Ignoring the discipline Honda had in their original approach";
         "Forgetting that Honda eventually did move upmarket successfully" ];
     questionsToAsk :=
       [ "What unexpected demand are you seeing?";
         "Who is buying that you didn't expect?";
         "What are they using it for that you didn't anticipate?";
         "Are you willing to follow the market's teaching?" ] |}.

Definition ext_intel_microprocessors : CaseStudyExtension :=
  {| keyTakeaways :=
       [ "Processes transfer; resources don't guarantee success";
         "Capability migration requires recognizing what you're actually good at";
         "The underlying skill matters more than the specific product";
         "Priorities must shift to enable the transition" ];
     commonMisapplications :=
       [ "Assuming any adjacent market is accessible";
         "Focusing on resources without examining processes";
         "Ignoring the difficulty of priority shifts" ];
     questionsToAsk :=
       [ "What processes have you developed that could transfer?";
         "What are you actually good at, underneath the current product?";
         "Would your priorities allow you to invest in this new direction?";
         "Is there a clear path from current capabilities to the new opportunity?" ] |}.

Definition CASE_STUDY_EXTENSIONS : list (string * CaseStudyExtension) :=
  [ ("steel_minimills", ext_steel_minimills);
    ("disk_drives", ext_disk_drives);
    ("milkshake", ext_milkshake);
    ("honda_motorcycles", ext_honda_motorcycles);
    ("intel_microprocessors", ext_intel_microprocessors) ].

(** [xs.map((x) => `- ${x}`).join("\n")]. *)
Definition bullets (xs : list string) : string :=
  Js.join Js.nl (map (fun x => "- " ++ x) xs).

(** The template of [getCaseStudyDetail], line by line. *)
Definition detailTemplate (caseStudy : CaseStudyPattern)
  (extension : CaseStudyExtension) : string :=
  Js.join Js.nl
    [ EmptyString;
      "# " ++ Disruption.name caseStudy;
      EmptyString;
      "## Pattern";
      "**" ++ Disruption.pattern caseStudy ++ "**";
      EmptyString;
      "## The Story";
      Disruption.story caseStudy;
      EmptyString;
      "## Signals That Match This Pattern";
      bullets (Disruption.signals caseStudy);
      EmptyString;
      "## Key Takeaways";
      bullets (keyTakeaways extension);
      EmptyString;
      "## Common Misapplications";
      bullets (commonMisapplications extension);
      EmptyString;
      "## Questions to Ask";
      bullets (questionsToAsk extension);
      EmptyString;
      "## Lesson for Today";
      Disruption.lessonsForToday caseStudy;
      EmptyString ].

Definition notFoundMessage (caseName : string) : string :=
  "Case study " ++ Js.dq ++ caseName ++ Js.dq ++ " not found.".

(** [getCaseStudyDetail].  A name that reaches a member of
    [Object.prototype] passes the [!caseStudy] test, and the template then
    reads [caseStudy.signals.map] on a value without [signals]: a
    TypeError.  The same holds for an [extension] without its lists. *)
Definition getCaseStudyDetail (caseName : string) : Js.completion string :=
  let caseStudy := Js.getProperty CANONICAL_CASES caseName in
  let extension := Js.getProperty CASE_STUDY_EXTENSIONS caseName in
  match caseStudy with
  | Js.Undefined => Js.Return (notFoundMessage caseName)
  | Js.Inherited => Js.Throw Js.TypeError
  | Js.Own caseStudy =>
      match extension with
      | Js.Own extension => Js.Return (Js.trim (detailTemplate caseStudy extension))
      | _ => Js.Throw Js.TypeError
      end
  end.

End CaseStudyTool.

(* ================================================================= *)
(** ** Regular expressions

    The fragment of ECMAScript regular expressions that the marker tables
    use, with the backtracking matcher of the language specification in
    continuation style: a matcher takes the index it starts at and the
    continuation that decides whether the rest of the pattern accepts the
    index it stops at. *)

Module RegExp.

Inductive cls :=
| CChar (c : ascii)   (* one character *)
| CSpace              (* \s *)
| CDigit.             (* \d *)

Inductive regex :=
| Empty
| Lit (p : string)                       (* a run of pattern characters *)
| Dot                                    (* .  *)
| Class (neg : bool) (items : list cls)  (* [...] and [^...] *)
| Seq (r1 r2 : regex)
| Alt (r1 r2 : regex)                    (* r1|r2 *)
| Star (r : regex)                       (* r*, greedy *)
| WordBoundary                           (* \b *)
| NegLookahead (r : regex)               (* (?!r) *)
| NegLookbehind (r : regex).             (* (?<!r) *)

(** [r?] tries [r] first; [r+] is one [r] and then [r*]. *)
Definition Opt (r : regex) : regex := Alt r Empty.
Definition Plus (r : regex) : regex := Seq r (Star r).

(** [/r1r2...rn/]. *)
Definition cat (rs : list regex) : regex := fold_right Seq Empty rs.

(** A regular expression object: its pattern and its [i] flag.  None of
    the tables' expressions has the [g] or [y] flag, so matching never
    reads or writes [lastIndex]. *)
Record t := { source : regex; ignoreCase : bool }.

Definition isLineTerminator (c : ascii) : bool :=
  (Js.code c =? 10) || (Js.code c =? 13).

Definition isDigit (c : ascii) : bool := Js.inRange 48 57 (Js.code c).

(** The word characters of [\b]: letters, digits and the underscore. *)
Definition isWordChar (c : ascii) : bool :=
  let n := Js.code c in
  Js.inRange 97 122 n || Js.inRange 65 90 n || Js.inRange 48 57 n || (n =? 95).

(** Upper case of one code unit within the range: a-z and U+00E0..U+00FE
    (U+00F7, the division sign, excepted) move down by 32.  The upper
    cases of U+00B5 and U+00FF lie outside the range and that of U+00DF
    has two characters: they stay distinct from every other character
    here, so they are left as they are. *)
Definition upperChar (c : ascii) : ascii :=
  let n := Js.code c in
  if Js.inRange 97 122 n || (Js.inRange 224 254 n && negb (n =? 247))
  then ascii_of_nat (n - 32) else c.

Section Matcher.

Variable ic : bool.         (* the i flag *)
Variable input : string.

(** Canonicalize of the specification, without the [u] flag. *)
Definition canonicalize (c : ascii) : ascii := if ic then upperChar c else c.

Definition sameChar (c p : ascii) : bool :=
  Ascii.eqb (canonicalize c) (canonicalize p).

Definition inCls (c : ascii) (it : cls) : bool :=
  match it with
  | CChar p => sameChar c p
  | CSpace => Js.isWhiteSpace c
  | CDigit => isDigit c
  end.

Definition wordAt (i : nat) : bool :=
  match get i input with
  | Some c => isWordChar c
  | None => false
  end.

(** IsWordChar(e - 1) differs from IsWordChar(e). *)
Definition atWordBoundary (i : nat) : bool :=
  xorb (match i with 0 => false | S j => wordAt j end) (wordAt i).

(** The pattern characters [p] stand at index [i]: the index after them. *)
Fixpoint litMatch (p : string) (i : nat) : option nat :=
  match p with
  | EmptyString => Some i
  | String a p' =>
      match get i input with
      | Some c => if sameChar c a then litMatch p' (S i) else None
      | None => None
      end
  end.

(** The turns of a greedy star whose body is matched by [body]: one more
    turn is tried first, and the continuation [k] is called where no
    further turn leads to a match. *)
Fixpoint turns (body : nat -> (nat -> option nat) -> option nat)
  (k : nat -> option nat) (fuel i : nat) : option nat :=
  match fuel with
  | 0 => k i
  | S fuel' =>
      match body i (fun j => if i <? j then turns body k fuel' j else None) with
      | Some e => Some e
      | None => k i
      end
  end.

(** The matcher of [r], from index [i], with continuation [k].  A greedy
    star repeats its body as long as each turn moves forward (a turn that
    matches the empty string is refused, as in RepeatMatcher), so it makes
    at most as many turns as characters remain.  A lookbehind holds at [i]
    when its body matches some stretch of the input that ends at [i]; the
    expressions here capture nothing, so reading that stretch backwards
    or forwards decides the same. *)
Fixpoint rmatch (r : regex) (i : nat) (k : nat -> option nat) : option nat :=
  match r with
  | Empty => k i
  | Lit p =>
      match litMatch p i with
      | Some j => k j
      | None => None
      end
  | Dot =>
      match get i input with
      | Some c => if isLineTerminator c then None else k (S i)
      | None => None
      end
  | Class neg items =>
      match get i input with
      | Some c => if xorb neg (existsb (inCls c) items) then k (S i) else None
      | None => None
      end
  | Seq r1 r2 => rmatch r1 i (fun j => rmatch r2 j k)
  | Alt r1 r2 =>
      match rmatch r1 i k with
      | Some e => Some e
      | None => rmatch r2 i k
      end
  | Star r' => turns (rmatch r') k (S (length input - i)) i
  | WordBoundary => if atWordBoundary i then k i else None
  | NegLookahead r' =>
      match rmatch r' i Some with
      | Some _ => None
      | None => k i
      end
  | NegLookbehind r' =>
      if existsb
           (fun j =>
              match rmatch r' j (fun e => if e =? i then Some e else None) with
              | Some _ => true
              | None => false
              end)
           (seq 0 (S i))
      then None else k i
  end.

(** The search of RegExpBuiltinExec: the first index, from 0 up to the
    length of the input, at which the pattern matches. *)
Fixpoint execFrom (r : regex) (fuel i : nat) : option (nat * nat) :=
  match rmatch r i Some with
  | Some e => Some (i, e)
  | None =>
      match fuel with
      | 0 => None
      | S fuel' => execFrom r fuel' (S i)
      end
  end.

End Matcher.

(** [re.exec(text)]: where the first match starts and ends. *)
Definition exec (re : t) (text : string) : option (nat * nat) :=
  execFrom (ignoreCase re) text (source re) (length text) 0.

(** [re.test(text)]. *)
Definition test (re : t) (text : string) : bool :=
  match exec re text with
  | Some _ => true
  | None => false
  end.

(** [text.match(re)] for an expression without the [g] flag, read at
    index 0: the matched substring. *)
Definition match0 (text : string) (re : t) : option string :=
  match exec re text with
  | Some (b, e) => Some (Js.slice text b e)
  | None => None
  end.

End RegExp.

(* ================================================================= *)
(** ** validation/fidelity-check.ts *)

Module Fidelity.

Import RegExp(regex, Empty, Lit, Dot, Class, Seq, Alt, Star, WordBoundary,
              NegLookahead, NegLookbehind, Opt, Plus, cat,
              CChar, CSpace, CDigit).

(** [/.../i] and [/.../]. *)
Definition ri (rs : list regex) : RegExp.t :=
  {| RegExp.source := cat rs; RegExp.ignoreCase := true |}.
Definition rx (rs : list regex) : RegExp.t :=
  {| RegExp.source := cat rs; RegExp.ignoreCase := false |}.

(** [[- ]], [[^.]*], [\s+], [[,\s]+], [\d+] and [\b]. *)
Definition dashOrSpace : regex := Class false [CChar "-"; CChar " "].
Definition noDots : regex := Star (Class true [CChar "."]).
Definition spaces : regex := Plus (Class false [CSpace]).
Definition commasOrSpaces : regex := Plus (Class false [CChar ","; CSpace]).
Definition digits : regex := Plus (Class false [CDigit]).
Definition b : regex := WordBoundary.

Record PositivePatterns := {
  p_frameworkReference : list RegExp.t;
  p_jtbdQuestion : list RegExp.t;
  p_humility : list RegExp.t;
  p_caseStudy : list RegExp.t;
  p_constraints : list RegExp.t;
  p_story : list RegExp.t
}.

Definition POSITIVE_PATTERNS : PositivePatterns :=
  {| p_frameworkReference :=
       [ ri [Lit "job"; Opt (Lit "s"); dashOrSpace; Lit "to"; dashOrSpace;
             Lit "be"; dashOrSpace; Lit "done"];
         ri [Lit "jtbd"];
         ri [Lit "disruption"];
         ri [Lit "disruptive"];
         ri [Lit "sustaining"];
         ri [Lit "capabilities"; commasOrSpaces; Lit "processes";
             commasOrSpaces; Opt (Seq (Lit "and") spaces); Lit "priorities"];
         ri [Lit "cpp"];
         ri [Lit "resource dependence"] ];
     p_jtbdQuestion :=
       [ ri [Lit "what job"];
         ri [Lit "hiring"; Star Dot;
             Alt (Lit "product") (Alt (Lit "solution") (Lit "this"))];
         ri [Lit "functional"; Star Dot; Lit "emotional"; Star Dot;
             Lit "social"];
         ri [Lit "circumstance"];
         ri [Lit "what are they firing"] ];
     p_humility :=
       [ ri [Lit "theory "; Opt (Alt (Lit "would ") (Lit "might "));
             Alt (Lit "suggest") (Lit "predict")];
         ri [Lit "I"; Opt (Lit "'"); Lit "ve seen this pattern"];
         ri [Lit "help me understand"];
         ri [Lit "the question "; Alt (Lit "is") (Lit "might be")];
         ri [Lit "appropriate uncertainty"];
         ri [Lit "might be different"];
         ri [Lit "depends on"] ];
     p_caseStudy :=
       [ ri [Lit "mini"; Opt dashOrSpace; Lit "mill"; Opt (Lit "s")];
         ri [Lit "steel"];
         ri [Lit "disk drive"];
         ri [Lit "milkshake"];
         ri [Lit "honda"];
         ri [Lit "intel"];
         ri [Lit "microprocessor"] ];
     p_constraints :=
       [ ri [Lit "resource provider"];
         ri [Lit "business model"];
         ri [Lit "priorit"; Alt (Lit "y") (Lit "ies")];
         ri [Lit "process"; Opt (Lit "es")];
         ri [Lit "what would need to change"] ];
     p_story :=
       [ ri [Lit "let me "; Alt (Lit "tell you") (Lit "share")];
         ri [Lit "story"];
         ri [Lit "example"];
         ri [Lit "I"; Opt (Lit "'"); Lit "m reminded of"];
         ri [Lit "consider "; Alt (Lit "the case") (Lit "how")] ] |}.

Record NegativePatterns := {
  n_overconfidence : list RegExp.t;
  n_dismissive : list RegExp.t;
  n_generic : list RegExp.t
}.

Definition NEGATIVE_PATTERNS : NegativePatterns :=
  {| n_overconfidence :=
       [ ri [b; Lit "will definitely"; b];
         ri [b; Lit "will certainly"; b];
         ri [b; Lit "guaranteed"; b];
         ri [b; Lit "will always"; b];
         ri [b; Lit "no doubt"; b];
         rx [b; Lit "100%"; b] ];
     n_dismissive :=
       [ ri [NegLookbehind (Seq (Lit "not that") noDots); b; Lit "stupid"; b;
             NegLookahead (Seq noDots (Lit "rational"))];
         ri [b; Lit "obviously wrong"; b];
         ri [b; Lit "terrible idea"; b];
         ri [b; Lit "that"; Opt (Lit "'"); Lit "s ";
             Alt (Lit "dumb") (Lit "idiotic"); b];
         ri [b; Lit "you"; Opt (Lit "'"); Lit "re wrong"; b] ];
     n_generic :=
       [ ri [b; Lit "just focus on execution"; b];
         ri [b; Lit "here"; Opt (Lit "'"); Lit "s a "; digits; dashOrSpace;
             Lit "step plan"; b];
         ri [b; Lit "best practices say"; b];
         ri [b; Lit "industry standard"; b] ] |}.

Record Marker := { found : bool; matches : list string }.

Record Breakdown := {
  frameworkReference : Marker;
  jtbdQuestion : Marker;
  humility : Marker;
  caseStudy : Marker;
  constraints : Marker;
  story : Marker
}.

Record AntiPatterns := {
  overconfidence : Marker;
  dismissive : Marker;
  generic : Marker
}.

Record FidelityScore := {
  overall : Z;
  breakdown : Breakdown;
  antiPatterns : AntiPatterns;
  mustIncludeScore : nat;
  shouldIncludeScore : nat;
  antiPatternPenalty : Z;
  passed : bool
}.

Definition empathyPattern : RegExp.t :=
  ri [Lit "not that"; noDots; Lit "stupid"; noDots; Lit "rational"].
Definition validationPattern : RegExp.t :=
  ri [Lit "dismissing"; noDots; Lit "stupid"].

Definition isChristensenStupidContext (text : string) : bool :=
  RegExp.test empathyPattern text || RegExp.test validationPattern text.

(** The [continue] of [findMatches]: the match is dropped. *)
Definition skipped (text : string) (category : option string) (m0 : string)
  : bool :=
  match category with
  | Some c =>
      String.eqb c "dismissive"
      && Js.includes (Js.toLowerCase m0) "stupid"
      && isChristensenStupidContext text
  | None => false
  end.

Fixpoint findMatches (text : string) (patterns : list RegExp.t)
  (category : option string) : list string :=
  match patterns with
  | [] => []
  | pattern :: rest =>
      match RegExp.match0 text pattern with
      | Some m0 =>
          if skipped text category m0 then findMatches text rest category
          else m0 :: findMatches text rest category
      | None => findMatches text rest category
      end
  end.

(** A marker as the object literal creates it and as the loop over the
    keys leaves it. *)
Definition unmarked (ms : list string) : Marker :=
  {| found := false; matches := ms |}.
Definition marked (m : Marker) : Marker :=
  {| found := 0 <? List.length (matches m); matches := matches m |}.

(** [items.filter(Boolean).length]. *)
Definition countTrue (items : list bool) : nat :=
  List.length (filter (fun x => x) items).

Definition calculateFidelityScore (output : string) : FidelityScore :=
  let breakdown :=
    {| frameworkReference :=
         marked (unmarked (findMatches output (p_frameworkReference POSITIVE_PATTERNS) None));
       jtbdQuestion :=
         marked (unmarked (findMatches output (p_jtbdQuestion POSITIVE_PATTERNS) None));
       humility :=
         marked (unmarked (findMatches output (p_humility POSITIVE_PATTERNS) None));
       caseStudy :=
         marked (unmarked (findMatches output (p_caseStudy POSITIVE_PATTERNS) None));
       constraints :=
         marked (unmarked (findMatches output (p_constraints POSITIVE_PATTERNS) None));
       story :=
         marked (unmarked (findMatches output (p_story POSITIVE_PATTERNS) None)) |} in
  let antiPatterns :=
    {| overconfidence :=
         marked (unmarked (findMatches output (n_overconfidence NEGATIVE_PATTERNS)
                             (Some "overconfidence")));
       dismissive :=
         marked (unmarked (findMatches output (n_dismissive NEGATIVE_PATTERNS)
                             (Some "dismissive")));
       generic :=
         marked (unmarked (findMatches output (n_generic NEGATIVE_PATTERNS) None)) |} in
  let mustIncludeItems :=
    [ found (frameworkReference breakdown);
      found (jtbdQuestion breakdown);
      found (humility breakdown);
      found (caseStudy breakdown);
      found (constraints breakdown) ] in
  let mustIncludeScore := countTrue mustIncludeItems in
  let shouldIncludeItems :=
    [ found (story breakdown);
      1 <? List.length (matches (frameworkReference breakdown));
      1 <? List.length (matches (humility breakdown));
      (0 <? List.length (matches (jtbdQuestion breakdown)))
      && found (constraints breakdown) ] in
  let shouldIncludeScore := countTrue shouldIncludeItems in
  let antiPatternPenalty :=
    ((if found (overconfidence antiPatterns) then 10 else 0)
     + (if found (dismissive antiPatterns) then 15 else 0)
     + (if found (generic antiPatterns) then 5 else 0))%Z in
  let rawScore := (Z.of_nat mustIncludeScore * 10 + Z.of_nat shouldIncludeScore * 10)%Z in
  let overall := Z.max 0 (Z.min 100 (rawScore - antiPatternPenalty)) in
  let passed :=
    (4 <=? mustIncludeScore)
    && negb (found (dismissive antiPatterns))
    && negb (found (overconfidence antiPatterns)) in
  {| overall := overall;
     breakdown := breakdown;
     antiPatterns := antiPatterns;
     mustIncludeScore := mustIncludeScore;
     shouldIncludeScore := shouldIncludeScore;
     antiPatternPenalty := antiPatternPenalty;
     passed := passed |}.

Definition checkFidelity (output : string) : bool :=
  passed (calculateFidelityScore output).

End Fidelity.

(* ================================================================= *)
(** ** The vocabulary of the specification *)

Module Spec.

Import Fidelity.

(** [clamp x lo hi]: [x] brought into the interval from [lo] to [hi]. *)
Definition clamp (x lo hi : Z) : Z :=
  if (x <? lo)%Z then lo else if (hi <? x)%Z then hi else x.

(** A category is triggered when it has at least one matched excerpt. *)
Definition triggered (m : Marker) : bool :=
  match matches m with
  | [] => false
  | _ :: _ => true
  end.

(** The number of checks that hold. *)
Fixpoint howMany (checks : list bool) : nat :=
  match checks with
  | [] => 0
  | true :: rest => S (howMany rest)
  | false :: rest => howMany rest
  end.

(** The penalty of the three forbidden categories. *)
Definition penaltyOf (overconfident dismissive generic : bool) : Z :=
  ((if overconfident then 10 else 0)
   + (if dismissive then 15 else 0)
   + (if generic then 5 else 0))%Z.

(** The dismissive rule of the word "stupid" and the four other rules of
    the category. *)
Definition stupidRule : RegExp.t :=
  hd (ri []) (n_dismissive NEGATIVE_PATTERNS).
Definition otherDismissiveRules : list RegExp.t :=
  tl (n_dismissive NEGATIVE_PATTERNS).

(** Some rule of the list matches somewhere in the text. *)
Definition someRuleMatches (rules : list RegExp.t) (text : string) : bool :=
  existsb (fun r => RegExp.test r text) rules.

(** The normal form of the containment test as the specification words
    it: case-folded and trimmed. *)
Definition normalize (s : string) : string := Js.trim (Js.toLowerCase s).

(** The partial bidirectional containment test on normalized strings: the
    first 20 characters of either occur in the other. *)
Definition partialContainment (observation descriptor : string) : bool :=
  let o := normalize observation in
  let d := normalize descriptor in
  Js.includes o (Js.slice d 0 20) || Js.includes d (Js.slice o 0 20).

(** [p] is the first [n] characters of [s] (all of [s] when it is
    shorter). *)
Definition leading (n : nat) (p s : string) : Prop :=
  (exists rest, s = p ++ rest) /\ length p = Nat.min n (length s).

(** The value of [matchCount] when the loop over the observations of
    [matchToCaseStudies] ends for one pattern record. *)
Definition matchCountOf (observations : list string)
  (record : Disruption.CaseStudyPattern) : nat :=
  fst (Disruption.outerLoop observations record (0, [])).

(** The value of [matchedSignals] at that point. *)
Definition matchedSignalsOf (observations : list string)
  (record : Disruption.CaseStudyPattern) : list string :=
  snd (Disruption.outerLoop observations record (0, [])).

(** An observation matches a descriptor when the test of the loop
    accepts the pair. *)
Definition matchesDescriptor (observation descriptor : string) : bool :=
  Disruption.signalTest (Js.toLowerCase observation) descriptor.

(** The number of distinct descriptors of a record that at least one
    observation matches. *)
Definition distinctDescriptorsMatched (observations : list string)
  (record : Disruption.CaseStudyPattern) : nat :=
  List.length
    (nodup string_dec
       (filter (fun d => existsb (fun o => matchesDescriptor o d) observations)
               (Disruption.signals record))).

(** The number of observations that match at least one descriptor of a
    record. *)
Definition observationsMatching (observations : list string)
  (record : Disruption.CaseStudyPattern) : nat :=
  List.length
    (filter (fun o => existsb (matchesDescriptor o) (Disruption.signals record))
            observations).

(** The place of a name in a list of names (its length when absent). *)
Fixpoint indexOf (x : string) (xs : list string) : nat :=
  match xs with
  | [] => 0
  | y :: rest => if String.eqb x y then 0 else S (indexOf x rest)
  end.

(** The place of a match result in the library's declaration order. *)
Definition declIndex (e : Types.CaseStudyReference) : nat :=
  indexOf (Types.name e)
          (map (fun entry => Disruption.name (snd entry)) Disruption.CANONICAL_CASES).

(** Tier rank first, declaration order second. *)
Definition rankedBefore (a b : Types.CaseStudyReference) : Prop :=
  (Disruption.order (Types.matchStrength a) < Disruption.order (Types.matchStrength b))%Z
  \/ (Types.matchStrength a = Types.matchStrength b /\ declIndex a < declIndex b).

End Spec.

(* ================================================================= *)
(** ** Properties of the string and array primitives *)

Module JsFacts.

Import Js.

Lemma prefix_iff (p s : string) :
  prefix p s = true <-> exists post, s = p ++ post.
Proof.
  revert s; induction p as [| a p IH]; intros s.
  - destruct s; simpl; split; eauto.
  - destruct s as [| c s]; simpl.
    + split; [discriminate | intros (post & H); discriminate].
    + destruct (ascii_dec a c) as [-> | Hne].
      * rewrite IH. split; intros (post & H); exists post.
        -- now rewrite H.
        -- now inversion H.
      * split; [discriminate | intros (post & H)].
        inversion H. congruence.
Qed.

(** [includes] decides occurrence. *)
Lemma includes_iff (s sub : string) :
  includes s sub = true <-> occursIn sub s.
Proof.
  induction s as [| c s IH].
  - cbn [includes]. destruct (prefix sub EmptyString) eqn:Hp.
    + split; [intros _ | reflexivity].
      apply prefix_iff in Hp. destruct Hp as (post & Hp).
      exists EmptyString, post. exact Hp.
    + split; [discriminate |].
      intros (pre & post & H).
      destruct pre; [| discriminate]. simpl in H.
      assert (prefix sub EmptyString = true) by (apply prefix_iff; eauto).
      congruence.
  - cbn [includes]. destruct (prefix sub (String c s)) eqn:Hp.
    + split; [intros _ | reflexivity].
      apply prefix_iff in Hp. destruct Hp as (post & Hp).
      exists EmptyString, post. exact Hp.
    + rewrite IH. split.
      * intros (pre & post & H). exists (String c pre), post.
        simpl. now rewrite H.
      * intros (pre & post & H). destruct pre as [| x pre].
        -- simpl in H.
           assert (prefix sub (String c s) = true) by (apply prefix_iff; eauto).
           congruence.
        -- inversion H. exists pre, post. reflexivity.
Qed.

(** [s.slice(0, n)] is the first [n] characters of [s]. *)
Lemma slice_0_split (s : string) (n : nat) :
  exists rest, s = slice s 0 n ++ rest /\ length (slice s 0 n) = Nat.min n (length s).
Proof.
  unfold slice. rewrite Nat.sub_0_r.
  revert s; induction n as [| n IH]; intros s.
  - exists s. destruct s; simpl; auto.
  - destruct s as [| c s]; simpl.
    + exists EmptyString. auto.
    + destruct (IH s) as (rest & H1 & H2).
      exists rest. split; [now rewrite <- H1 | now rewrite H2].
Qed.

Section Sort.

Context {A : Type}.
Variable cmp : A -> A -> Z.

Lemma In_insert (x y : A) (l : list A) :
  In y (insert cmp x l) <-> y = x \/ In y l.
Proof.
  induction l as [| z l IH]; simpl.
  - intuition.
  - destruct (cmp x z <=? 0)%Z; simpl; [| rewrite IH]; intuition.
Qed.

Lemma In_sort (y : A) (l : list A) : In y (sort cmp l) <-> In y l.
Proof.
  induction l as [| x l IH]; simpl; [reflexivity |].
  rewrite In_insert, IH. intuition.
Qed.

Lemma length_insert (x : A) (l : list A) :
  List.length (insert cmp x l) = S (List.length l).
Proof.
  induction l as [| z l IH]; simpl; [reflexivity |].
  destruct (cmp x z <=? 0)%Z; simpl; now rewrite ?IH.
Qed.

Lemma length_sort (l : list A) : List.length (sort cmp l) = List.length l.
Proof.
  induction l as [| x l IH]; simpl; [reflexivity |].
  now rewrite length_insert, IH.
Qed.

End Sort.

(** Sorting by a numeric key orders the result by key and, among equal
    keys, keeps the order the elements came in. *)
Section StableSort.

Context {A : Type}.
Variable key : A -> Z.
Variable place : A -> nat.

Let cmp (a b : A) : Z := (key a - key b)%Z.

Definition keyThenPlace (a b : A) : Prop :=
  (key a < key b)%Z \/ (key a = key b /\ place a < place b).

Lemma insert_keyThenPlace (x : A) (l : list A) :
  StronglySorted keyThenPlace l ->
  Forall (fun y => place x < place y) l ->
  StronglySorted keyThenPlace (insert cmp x l).
Proof.
  induction l as [| y l IH]; intros Hs Hp; simpl.
  - repeat constructor.
  - inversion Hs as [| ? ? Hs' Hy]; subst.
    inversion Hp as [| ? ? Hxy Hp']; subst.
    unfold cmp at 1.
    destruct (Z.leb_spec (key x - key y) 0) as [Hle | Hgt].
    + constructor; [exact Hs |].
      constructor.
      * unfold keyThenPlace. lia.
      * rewrite Forall_forall in Hy, Hp' |- *.
        intros z Hz. specialize (Hy z Hz). specialize (Hp' z Hz).
        unfold keyThenPlace in *. lia.
    + constructor; [now apply IH |].
      rewrite Forall_forall in Hy |- *.
      intros z Hz. apply In_insert in Hz. destruct Hz as [-> | Hz].
      * unfold keyThenPlace. lia.
      * now apply Hy.
Qed.

Lemma sort_keyThenPlace (l : list A) :
  StronglySorted (fun a b => place a < place b) l ->
  StronglySorted keyThenPlace (sort cmp l).
Proof.
  induction l as [| x l IH]; intros Hs; simpl.
  - constructor.
  - inversion Hs as [| ? ? Hs' Hx]; subst.
    apply insert_keyThenPlace; [now apply IH |].
    rewrite Forall_forall in Hx |- *.
    intros y Hy. apply In_sort in Hy. now apply Hx.
Qed.

End StableSort.

End JsFacts.

(* ================================================================= *)
(** ** Properties of case-study matching *)

Module DisruptionFacts.

Import Disruption Spec.
Import Types(ConfidenceLevel, high, medium, low, uncertain, CaseStudyReference).

(** The record that [matchToCaseStudies] pushes for a pattern record whose
    count is positive. *)
Definition referenceOf (observations : list string) (caseStudy : CaseStudyPattern)
  : CaseStudyReference :=
  {| Types.name := name caseStudy;
     Types.pattern := pattern caseStudy;
     Types.relevance :=
       "Matches " ++ Js.ofNat (matchCountOf observations caseStudy)
       ++ " signals: " ++ Js.join "; " (matchedSignalsOf observations caseStudy);
     Types.matchStrength := strengthOf (matchCountOf observations caseStudy) |}.

Lemma innerLoop_find (u : string) (cs : list string) :
  innerLoop u cs = find (signalTest u) cs.
Proof.
  induction cs as [| c cs IH]; simpl; [reflexivity |].
  destruct (signalTest u c); auto.
Qed.

Lemma innerLoop_existsb (u : string) (cs : list string) :
  match innerLoop u cs with Some _ => true | None => false end
  = existsb (signalTest u) cs.
Proof.
  induction cs as [| c cs IH]; simpl; [reflexivity |].
  destruct (signalTest u c); auto.
Qed.

Lemma innerLoop_Some (u : string) (cs : list string) (c : string) :
  innerLoop u cs = Some c -> In c cs /\ signalTest u c = true.
Proof.
  rewrite innerLoop_find. intros H. apply find_some in H. exact H.
Qed.

(** Each observation that has a matching descriptor adds one to the count
    and one entry to the list, whatever the other observations did. *)
Lemma outerLoop_count (us : list string) (cs : CaseStudyPattern)
  (st : nat * list string) :
  fst (outerLoop us cs st) = fst st + observationsMatching us cs
  /\ List.length (snd (outerLoop us cs st))
     = List.length (snd st) + observationsMatching us cs.
Proof.
  unfold observationsMatching, matchesDescriptor.
  revert st; induction us as [| u us IH]; intros st; simpl.
  - split; lia.
  - rewrite <- innerLoop_existsb.
    destruct (innerLoop (Js.toLowerCase u) (signals cs)) as [c |].
    + destruct (IH (S (fst st), (snd st ++ [c])%list)) as [H1 H2].
      rewrite H1, H2. simpl. rewrite length_app. simpl. split; lia.
    + apply IH.
Qed.

Lemma matchCountOf_eq (us : list string) (cs : CaseStudyPattern) :
  matchCountOf us cs = observationsMatching us cs.
Proof. unfold matchCountOf. now rewrite (proj1 (outerLoop_count us cs (0, []))). Qed.

Lemma visitCase_eq (us : list string) (entry : string * CaseStudyPattern) :
  visitCase us entry =
  if 0 <? matchCountOf us (snd entry) then [referenceOf us (snd entry)] else [].
Proof.
  unfold visitCase, referenceOf, matchCountOf, matchedSignalsOf.
  destruct (outerLoop us (snd entry) (0, [])) as [n ms]. reflexivity.
Qed.

Lemma In_output (us : list string) (e : CaseStudyReference) :
  In e (matchToCaseStudies us) <->
  exists entry, In entry CANONICAL_CASES
                /\ 0 < matchCountOf us (snd entry)
                /\ e = referenceOf us (snd entry).
Proof.
  unfold matchToCaseStudies, collectMatches.
  rewrite JsFacts.In_sort, in_flat_map.
  split; intros (entry & Hin & H); exists entry; (split; [exact Hin |]).
  - rewrite visitCase_eq in H.
    destruct (Nat.ltb_spec 0 (matchCountOf us (snd entry))); simpl in H.
    + destruct H as [H | []]. auto.
    + destruct H.
  - destruct H as [Hpos ->]. rewrite visitCase_eq.
    apply Nat.ltb_lt in Hpos. rewrite Hpos. now left.
Qed.

Lemma strengthOf_spec (n : nat) :
  (strengthOf n = high <-> 3 <= n)
  /\ (strengthOf n = medium <-> n = 2)
  /\ (strengthOf n = low <-> n <= 1)
  /\ strengthOf n <> uncertain.
Proof.
  unfold strengthOf.
  destruct (Nat.leb_spec 3 n); [| destruct (Nat.leb_spec 2 n)];
    repeat split; intros; try discriminate; try lia; auto.
Qed.

Lemma order_injective (a b : ConfidenceLevel) : order a = order b -> a = b.
Proof. destruct a, b; simpl; intros; try reflexivity; lia. Qed.

(** The names of the library's records differ from one another. *)
Lemma names_distinct (e1 e2 : string * CaseStudyPattern) :
  In e1 CANONICAL_CASES -> In e2 CANONICAL_CASES ->
  name (snd e1) = name (snd e2) -> e1 = e2.
Proof.
  unfold CANONICAL_CASES. simpl.
  intros H1 H2.
  repeat (destruct H1 as [<- | H1]); try contradiction;
    repeat (destruct H2 as [<- | H2]); try contradiction;
    simpl; intros Hn; try reflexivity; discriminate Hn.
Qed.

(** Before the sort the matches stand in declaration order. *)
Lemma collectMatches_in_order (us : list string) :
  StronglySorted (fun a b => declIndex a < declIndex b) (collectMatches us).
Proof.
  unfold collectMatches, CANONICAL_CASES. cbn [flat_map].
  rewrite !visitCase_eq. cbn [snd].
  destruct (0 <? matchCountOf us steel_minimills);
    destruct (0 <? matchCountOf us disk_drives);
    destruct (0 <? matchCountOf us honda_motorcycles);
    destruct (0 <? matchCountOf us intel_microprocessors);
    cbn [app];
    repeat (constructor; try (unfold declIndex; cbn; lia)).
Qed.

Lemma StronglySorted_weaken {A : Type} (R R' : A -> A -> Prop) (l : list A) :
  (forall a b, R a b -> R' a b) -> StronglySorted R l -> StronglySorted R' l.
Proof.
  intros HR Hs. induction Hs as [| x l Hs IH Hx]; constructor; auto.
  eapply Forall_impl; [| exact Hx]. auto.
Qed.

Lemma output_ranked (us : list string) :
  StronglySorted rankedBefore (matchToCaseStudies us).
Proof.
  unfold matchToCaseStudies.
  apply StronglySorted_weaken
    with (R := JsFacts.keyThenPlace (fun e => order (Types.matchStrength e)) declIndex).
  - intros a b0 [H | [H1 H2]]; [left; exact H | right].
    split; [now apply order_injective | exact H2].
  - apply (JsFacts.sort_keyThenPlace (fun e => order (Types.matchStrength e)) declIndex).
    apply collectMatches_in_order.
Qed.

(** C2, as the code has it.  An observation and a descriptor count as a
    match exactly when, both strings being case-folded and nothing being
    trimmed, the first 20 characters of either occur in the other. *)
Theorem signalTest_iff_leading_occurs (observation descriptor : string) :
  let o := Js.toLowerCase observation in
  let d := Js.toLowerCase descriptor in
  (matchesDescriptor observation descriptor = true <->
   Js.occursIn (Js.slice d 0 20) o \/ Js.occursIn (Js.slice o 0 20) d)
  /\ leading 20 (Js.slice d 0 20) d
  /\ leading 20 (Js.slice o 0 20) o.
Proof.
  intros o d. split; [| split].
  - unfold matchesDescriptor, signalTest. fold o d.
    rewrite orb_true_iff, !JsFacts.includes_iff. reflexivity.
  - destruct (JsFacts.slice_0_split d 20) as (rest & H1 & H2).
    split; eauto.
  - destruct (JsFacts.slice_0_split o 20) as (rest & H1 & H2).
    split; eauto.
Qed.

(** C2 fails as worded: an observation with a leading blank matches a
    descriptor once trimmed, and the code, which does not trim, rejects
    the pair. *)
Lemma trimming_is_not_applied :
  let observation := " incumbent has high" in
  let descriptor := "Incumbent has high fixed-cost structure" in
  In descriptor (signals steel_minimills)
  /\ partialContainment observation descriptor = true
  /\ matchesDescriptor observation descriptor = false
  /\ matchToCaseStudies [observation] = [].
Proof. vm_compute. intuition. Qed.

(** C3, as the code has it.  For a record of the library the count is the
    number of observations that match at least one of its descriptors (an
    observation adds one, however many descriptors it matches), and a
    record with a positive count is reported with that count. *)
Theorem matchCount_counts_observations
  (observations : list string) (key : string) (record : CaseStudyPattern) :
  In (key, record) CANONICAL_CASES ->
  let n := observationsMatching observations record in
  matchCountOf observations record = n
  /\ n <= List.length observations
  /\ List.length (matchedSignalsOf observations record) = n
  /\ (0 < n ->
      In {| Types.name := name record;
            Types.pattern := pattern record;
            Types.relevance :=
              "Matches " ++ Js.ofNat n ++ " signals: "
              ++ Js.join "; " (matchedSignalsOf observations record);
            Types.matchStrength := strengthOf n |}
         (matchToCaseStudies observations)).
Proof.
  intros Hin n.
  assert (Hn : matchCountOf observations record = n) by apply matchCountOf_eq.
  split; [exact Hn |]. split; [| split].
  - unfold n, observationsMatching. apply filter_length_le.
  - unfold matchedSignalsOf.
    now rewrite (proj2 (outerLoop_count observations record (0, []))).
  - intros Hpos. apply In_output. exists (key, record).
    split; [exact Hin |]. simpl. split; [lia |].
    unfold referenceOf. now rewrite Hn.
Qed.

Lemma matchCount_counts_observations_witness :
  let s := "Incumbent has high fixed-cost structure" in
  matchCountOf [s; s] steel_minimills = 2
  /\ In {| Types.name := "Steel Mini-Mills";
           Types.pattern := "Low-end disruption with asymmetric motivation";
           Types.relevance :=
             "Matches 2 signals: Incumbent has high fixed-cost structure; Incumbent has high fixed-cost structure";
           Types.matchStrength := medium |}
        (matchToCaseStudies [s; s]).
Proof.
  intros s.
  destruct (matchCount_counts_observations [s; s] "steel_minimills" steel_minimills)
    as (H1 & _ & _ & H4).
  - simpl. auto.
  - split; [exact H1 |]. apply H4. vm_compute. lia.
Defined.

(** C3 fails as worded: two observations that match the same descriptor
    give a count of 2 while one descriptor is matched. *)
Lemma repeated_observation_counts_twice :
  let s := "Incumbent has high fixed-cost structure" in
  matchCountOf [s; s] steel_minimills = 2
  /\ distinctDescriptorsMatched [s; s] steel_minimills = 1
  /\ map Types.relevance (matchToCaseStudies [s; s])
     = ["Matches 2 signals: Incumbent has high fixed-cost structure; Incumbent has high fixed-cost structure"]
  /\ map Types.matchStrength (matchToCaseStudies [s; s]) = [medium].
Proof. vm_compute. intuition. Qed.

(** C6.  Every entry of the output stands for a record of the library
    with a positive count; its tier is high exactly when the count is at
    least 3, medium exactly when it is 2 and low otherwise; and the output
    is ordered by tier, high before medium before low, entries of one tier
    standing in the library's declaration order. *)
Theorem tiers_and_order (observations : list string) :
  let out := matchToCaseStudies observations in
  (forall e, In e out ->
     exists key record,
       In (key, record) CANONICAL_CASES
       /\ Types.name e = name record
       /\ let n := matchCountOf observations record in
          1 <= n
          /\ (Types.matchStrength e = high <-> 3 <= n)
          /\ (Types.matchStrength e = medium <-> n = 2)
          /\ (Types.matchStrength e = low <-> n = 1))
  /\ StronglySorted rankedBefore out.
Proof.
  intros out. split; [| apply output_ranked].
  intros e He. apply In_output in He.
  destruct He as ([key record] & Hin & Hpos & ->). simpl in Hpos.
  exists key, record. split; [exact Hin |]. split; [reflexivity |].
  cbn [snd referenceOf Types.matchStrength].
  destruct (strengthOf_spec (matchCountOf observations record)) as (Hh & Hm & Hl & _).
  repeat split; try tauto; try lia.
  - intros H. apply Hl in H. lia.
  - intros H. apply Hl. lia.
Qed.

Lemma tiers_and_order_witness :
  let observations :=
    [ "New form factor"; "Entrant quality improves"; "Low-end segments are";
      "incumbent has high fixed-cost structure today" ] in
  map Types.name (matchToCaseStudies observations)
  = ["Steel Mini-Mills"; "Disk Drive Generations"]
  /\ exists key record,
       In (key, record) CANONICAL_CASES
       /\ name record = "Steel Mini-Mills"
       /\ matchCountOf observations record = 3.
Proof.
  intros observations. split; [vm_compute; reflexivity |].
  destruct (tiers_and_order observations) as [H _].
  destruct (H (referenceOf observations steel_minimills)) as (key & record & Hin & Hn & _).
  - vm_compute. auto.
  - exists key, record. split; [exact Hin |].
    assert (Heq : ("steel_minimills", steel_minimills) = (key, record)).
    { apply names_distinct; [simpl; auto | exact Hin | exact Hn]. }
    inversion Heq; subst. split; [reflexivity | vm_compute; reflexivity].
Defined.

(** C7.  Every entry of the output stands for a record whose count is at
    least 1 and reports that count; a record whose count is 0 has no entry;
    and no observation at all gives the empty output. *)
Theorem no_match_is_elided (observations : list string) :
  let out := matchToCaseStudies observations in
  (forall e, In e out ->
     exists key record,
       In (key, record) CANONICAL_CASES
       /\ e = referenceOf observations record
       /\ 1 <= matchCountOf observations record)
  /\ (forall key record,
        In (key, record) CANONICAL_CASES ->
        matchCountOf observations record = 0 ->
        forall e, In e out -> Types.name e <> name record)
  /\ matchToCaseStudies [] = [].
Proof.
  intros out. split; [| split].
  - intros e He. apply In_output in He.
    destruct He as ([key record] & Hin & Hpos & ->).
    exists key, record. simpl in *. auto.
  - intros key record Hin Hzero e He Hname. apply In_output in He.
    destruct He as ([key' record'] & Hin' & Hpos & ->). simpl in *.
    assert (Heq : (key', record') = (key, record))
      by (apply names_distinct; auto).
    inversion Heq; subst. lia.
  - reflexivity.
Qed.

Lemma no_match_is_elided_witness :
  let observations := ["new form factor"] in
  matchCountOf observations steel_minimills = 0
  /\ map Types.name (matchToCaseStudies observations) = ["Disk Drive Generations"]
  /\ forall e, In e (matchToCaseStudies observations) ->
               Types.name e <> "Steel Mini-Mills".
Proof.
  intros observations.
  assert (Hz : matchCountOf observations steel_minimills = 0)
    by (vm_compute; reflexivity).
  split; [exact Hz |]. split; [vm_compute; reflexivity |].
  destruct (no_match_is_elided observations) as (_ & H & _).
  apply (H "steel_minimills" steel_minimills); [simpl; auto | exact Hz].
Defined.

End DisruptionFacts.

(* ================================================================= *)
(** ** Properties of the matcher *)

Module RegExpFacts.

Import RegExp.

Section Spans.

Variable ic : bool.
Variable input : string.

(** [spans r i j]: the pattern [r] can match the stretch of the input
    from index [i] to index [j]. *)
Inductive spans : regex -> nat -> nat -> Prop :=
| S_Empty i : spans Empty i i
| S_Lit p i j : litMatch ic input p i = Some j -> spans (Lit p) i j
| S_Dot i c :
    get i input = Some c -> isLineTerminator c = false -> spans Dot i (S i)
| S_Class neg items i c :
    get i input = Some c -> xorb neg (existsb (inCls ic c) items) = true ->
    spans (Class neg items) i (S i)
| S_Seq r1 r2 i j k : spans r1 i j -> spans r2 j k -> spans (Seq r1 r2) i k
| S_AltL r1 r2 i j : spans r1 i j -> spans (Alt r1 r2) i j
| S_AltR r1 r2 i j : spans r2 i j -> spans (Alt r1 r2) i j
| S_StarNil r i : spans (Star r) i i
| S_StarStep r i j k :
    spans r i j -> i < j -> spans (Star r) j k -> spans (Star r) i k
| S_WordBoundary i : atWordBoundary input i = true -> spans WordBoundary i i
| S_NegLookahead r i :
    rmatch ic input r i Some = None -> spans (NegLookahead r) i i
| S_NegLookbehind r i : spans (NegLookbehind r) i i.

(** Whatever the matcher returns went through its continuation at the
    end of a stretch the pattern spans. *)
Lemma rmatch_sound (r : regex) :
  forall i k e, rmatch ic input r i k = Some e ->
                exists j, spans r i j /\ k j = Some e.
Proof.
  induction r as [| p | | neg items | r1 IH1 r2 IH2 | r1 IH1 r2 IH2 | r IH | | r IH | r IH];
    intros i k e H; cbn [rmatch] in H.
  - exists i. split; [constructor | exact H].
  - destruct (litMatch ic input p i) as [j |] eqn:Hl; [| discriminate].
    exists j. split; [now constructor | exact H].
  - destruct (get i input) as [c |] eqn:Hg; [| discriminate].
    destruct (isLineTerminator c) eqn:Hc; [discriminate |].
    exists (S i). split; [econstructor; eauto | exact H].
  - destruct (get i input) as [c |] eqn:Hg; [| discriminate].
    destruct (xorb neg (existsb (inCls ic c) items)) eqn:Hc; [| discriminate].
    exists (S i). split; [econstructor; eauto | exact H].
  - apply IH1 in H. destruct H as (j & Hj & H).
    apply IH2 in H. destruct H as (j' & Hj' & H).
    exists j'. split; [econstructor; eauto | exact H].
  - destruct (rmatch ic input r1 i k) as [x |] eqn:H1.
    + apply IH1 in H1. destruct H1 as (j & Hj & Hk).
      exists j. split; [now apply S_AltL | congruence].
    + apply IH2 in H. destruct H as (j & Hj & Hk).
      exists j. split; [now apply S_AltR | exact Hk].
  - revert H. generalize (S (length input - i)) as fuel. intros fuel.
    revert i. induction fuel as [| fuel IHf]; intros i H; cbn [turns] in H.
    + exists i. split; [constructor | exact H].
    + match type of H with
      | match ?m with _ => _ end = _ => destruct m as [x |] eqn:Hm
      end.
      * inversion H; subst x.
        apply IH in Hm. destruct Hm as (j & Hj & Hk).
        destruct (Nat.ltb_spec i j) as [Hlt |]; [| discriminate].
        apply IHf in Hk. destruct Hk as (j' & Hj' & Hk).
        exists j'. split; [eapply S_StarStep; eauto | exact Hk].
      * exists i. split; [constructor | exact H].
  - destruct (atWordBoundary input i) eqn:Hb; [| discriminate].
    exists i. split; [now constructor | exact H].
  - destruct (rmatch ic input r i Some) as [x |] eqn:Hm; [discriminate |].
    exists i. split; [now constructor | exact H].
  - match type of H with
    | (if ?c then _ else _) = _ => destruct c; [discriminate |]
    end.
    exists i. split; [constructor | exact H].
Qed.

Lemma execFrom_sound (r : regex) (fuel i b e : nat) :
  execFrom ic input r fuel i = Some (b, e) -> spans r b e.
Proof.
  revert i; induction fuel as [| fuel IH]; intros i H; cbn [execFrom] in H.
  - destruct (rmatch ic input r i Some) as [x |] eqn:Hm; [| discriminate].
    inversion H; subst. apply rmatch_sound in Hm.
    destruct Hm as (j & Hj & Hk). now inversion Hk; subst.
  - destruct (rmatch ic input r i Some) as [x |] eqn:Hm.
    + inversion H; subst. apply rmatch_sound in Hm.
      destruct Hm as (j & Hj & Hk). now inversion Hk; subst.
    + eapply IH; eauto.
Qed.

(** *** The turns of a star

    The continuation is only ever called between the index a matcher
    starts at and the end of the input, so a star, whose turns each move
    forward, never uses up the turns it is given. *)

Lemma get_Some_lt (i : nat) (s : string) (c : ascii) :
  get i s = Some c -> i < length s.
Proof.
  revert i; induction s as [| x s IH]; intros i H; simpl in H.
  - discriminate.
  - destruct i as [| i]; simpl; [lia |]. apply IH in H. lia.
Qed.

Lemma litMatch_bounds (p : string) :
  forall i j, i <= length input -> litMatch ic input p i = Some j ->
              i <= j /\ j <= length input.
Proof.
  induction p as [| a p IH]; intros i j Hi H; cbn [litMatch] in H.
  - inversion H; subst. lia.
  - destruct (get i input) as [c |] eqn:Hg; [| discriminate].
    destruct (sameChar ic c a); [| discriminate].
    apply get_Some_lt in Hg. apply IH in H; lia.
Qed.

Lemma turns_ext (body : nat -> (nat -> option nat) -> option nat) :
  (forall i k1 k2,
      (forall j, i <= j -> j <= length input -> k1 j = k2 j) ->
      i <= length input -> body i k1 = body i k2) ->
  forall fuel i k1 k2,
    (forall j, i <= j -> j <= length input -> k1 j = k2 j) ->
    i <= length input ->
    turns body k1 fuel i = turns body k2 fuel i.
Proof.
  intros Hbody fuel. induction fuel as [| fuel IH]; intros i k1 k2 Hk Hi;
    cbn [turns].
  - apply Hk; lia.
  - rewrite (Hbody i _ (fun j => if i <? j then turns body k2 fuel j else None)).
    + rewrite (Hk i) by lia. reflexivity.
    + intros j Hij Hj. destruct (Nat.ltb_spec i j); [| reflexivity].
      apply IH; [| exact Hj]. intros j' Hjj' Hj'. apply Hk; lia.
    + exact Hi.
Qed.

Lemma rmatch_ext (r : regex) :
  forall i k1 k2,
    (forall j, i <= j -> j <= length input -> k1 j = k2 j) ->
    i <= length input ->
    rmatch ic input r i k1 = rmatch ic input r i k2.
Proof.
  induction r as [| p | | neg items | r1 IH1 r2 IH2 | r1 IH1 r2 IH2 | r IH | | r IH | r IH];
    intros i k1 k2 Hk Hi; cbn [rmatch].
  - apply Hk; lia.
  - destruct (litMatch ic input p i) as [j |] eqn:Hl; [| reflexivity].
    apply litMatch_bounds in Hl; [| exact Hi]. apply Hk; lia.
  - destruct (get i input) as [c |] eqn:Hg; [| reflexivity].
    apply get_Some_lt in Hg.
    destruct (isLineTerminator c); [reflexivity | apply Hk; lia].
  - destruct (get i input) as [c |] eqn:Hg; [| reflexivity].
    apply get_Some_lt in Hg.
    destruct (xorb neg (existsb (inCls ic c) items)); [apply Hk; lia | reflexivity].
  - apply IH1; [| exact Hi]. intros j Hij Hj.
    apply IH2; [| exact Hj]. intros j' Hjj' Hj'. apply Hk; lia.
  - rewrite (IH1 i k1 k2 Hk Hi), (IH2 i k1 k2 Hk Hi). reflexivity.
  - apply turns_ext; auto.
  - rewrite (Hk i) by lia. reflexivity.
  - rewrite (Hk i) by lia. reflexivity.
  - rewrite (Hk i) by lia. reflexivity.
Qed.

Lemma turns_one_more (r : regex) (k : nat -> option nat) :
  forall fuel i, i <= length input -> length input - i < fuel ->
                 turns (rmatch ic input r) k fuel i
                 = turns (rmatch ic input r) k (S fuel) i.
Proof.
  induction fuel as [| fuel IH]; intros i Hi Hf; [lia |].
  cbn [turns].
  rewrite (rmatch_ext r i _
             (fun j => if i <? j then turns (rmatch ic input r) k (S fuel) j else None)).
  - reflexivity.
  - intros j Hij Hj. destruct (Nat.ltb_spec i j); [| reflexivity].
    apply IH; lia.
  - exact Hi.
Qed.

(** More turns than the star is given change nothing. *)
Lemma star_fuel_suffices (r : regex) (k : nat -> option nat) (i extra : nat) :
  i <= length input ->
  turns (rmatch ic input r) k (S (length input - i) + extra) i
  = rmatch ic input (Star r) i k.
Proof.
  intros Hi. cbn [rmatch].
  induction extra as [| extra IH].
  - now rewrite Nat.add_0_r.
  - rewrite <- IH. rewrite Nat.add_succ_r. symmetry.
    apply turns_one_more; lia.
Qed.

(** *** Literal stretches *)

(** Two strings agree character by character up to the case folding of
    the matcher. *)
Fixpoint sameString (m p : string) : bool :=
  match m, p with
  | EmptyString, EmptyString => true
  | String c m', String a p' => sameChar ic c a && sameString m' p'
  | _, _ => false
  end.

(** [m] begins with [p], up to the case folding of the matcher. *)
Fixpoint samePrefix (m p : string) : bool :=
  match p, m with
  | EmptyString, _ => true
  | String a p', String c m' => sameChar ic c a && samePrefix m' p'
  | String _ _, EmptyString => false
  end.

Lemma substring_0_length (i : nat) (s : string) : substring i 0 s = EmptyString.
Proof.
  revert s; induction i as [| i IH]; intros s; destruct s; simpl; auto.
Qed.

Lemma substring_get (i n : nat) (s : string) (c : ascii) :
  get i s = Some c -> substring i (S n) s = String c (substring (S i) n s).
Proof.
  revert s; induction i as [| i IH]; intros s H; destruct s as [| x s];
    simpl in H; try discriminate.
  - inversion H; subst. simpl. destruct n, s; reflexivity.
  - cbn [substring]. rewrite (IH _ H). reflexivity.
Qed.

Lemma litMatch_spec (p : string) :
  forall i j, litMatch ic input p i = Some j ->
              j = i + length p
              /\ sameString (substring i (length p) input) p = true.
Proof.
  induction p as [| a p IH]; intros i j H; cbn [litMatch] in H.
  - inversion H; subst. simpl. rewrite substring_0_length. split; [lia | reflexivity].
  - destruct (get i input) as [c |] eqn:Hg; [| discriminate].
    destruct (sameChar ic c a) eqn:Hc; [| discriminate].
    apply IH in H. destruct H as [-> H].
    cbn [length]. rewrite (substring_get _ _ _ _ Hg). cbn [sameString].
    rewrite Hc, H. split; [lia | reflexivity].
Qed.

Lemma litMatch_app (p q : string) :
  forall i j k, litMatch ic input p i = Some j ->
                litMatch ic input q j = Some k ->
                litMatch ic input (p ++ q) i = Some k.
Proof.
  induction p as [| a p IH]; intros i j k Hp Hq; cbn [litMatch append] in *.
  - inversion Hp; subst. exact Hq.
  - destruct (get i input) as [c |]; [| discriminate].
    destruct (sameChar ic c a); [| discriminate].
    eapply IH; eauto.
Qed.

Lemma litMatch_prefix (p : string) :
  forall i j n, litMatch ic input p i = Some j -> length p <= n ->
                samePrefix (substring i n input) p = true.
Proof.
  induction p as [| a p IH]; intros i j n H Hn; cbn [litMatch] in H.
  - destruct (substring i n input); reflexivity.
  - destruct (get i input) as [c |] eqn:Hg; [| discriminate].
    destruct (sameChar ic c a) eqn:Hc; [| discriminate].
    destruct n as [| n]; [simpl in Hn; lia |].
    rewrite (substring_get _ _ _ _ Hg). cbn [samePrefix]. rewrite Hc.
    simpl in Hn. apply (IH _ _ n H). lia.
Qed.

Lemma spans_le (r : regex) (i j : nat) : spans r i j -> i <= j.
Proof.
  induction 1; try lia.
  match goal with H : litMatch _ _ _ _ = Some _ |- _ => apply litMatch_spec in H end.
  lia.
Qed.

(** The characters of a class that lists characters only. *)
Fixpoint onlyChars (items : list cls) : option (list ascii) :=
  match items with
  | [] => Some []
  | CChar a :: rest =>
      match onlyChars rest with
      | Some cs => Some (a :: cs)
      | None => None
      end
  | _ :: _ => None
  end.

Lemma onlyChars_In (items : list cls) :
  forall cs it, onlyChars items = Some cs -> In it items ->
                exists a, it = CChar a /\ In a cs.
Proof.
  induction items as [| x items IH]; intros cs it H Hin; [destruct Hin |].
  destruct x as [a | |]; simpl in H; try discriminate.
  destruct (onlyChars items) as [cs' |]; [| discriminate].
  inversion H; subst; clear H.
  destruct Hin as [<- | Hin].
  - exists a. simpl; auto.
  - destruct (IH _ _ eq_refl Hin) as (a' & -> & Ha'). exists a'. simpl; auto.
Qed.

(** How the stretches of a pattern begin.  A head [(p, true)] stands for
    the stretches that are [p] up to case, a head [(p, false)] for
    stretches that begin with [p] up to case: the literal text of the
    pattern up to its first dot, star or open character class. *)
Fixpoint heads (r : regex) : list (string * bool) :=
  match r with
  | Empty | WordBoundary | NegLookahead _ | NegLookbehind _ =>
      [(EmptyString, true)]
  | Lit p => [(p, true)]
  | Class false items =>
      match onlyChars items with
      | Some cs => map (fun a => (String a EmptyString, true)) cs
      | None => [(EmptyString, false)]
      end
  | Class true _ | Dot | Star _ => [(EmptyString, false)]
  | Seq r1 r2 =>
      flat_map
        (fun h : string * bool =>
           if snd h
           then map (fun h2 : string * bool => (fst h ++ fst h2, snd h2)) (heads r2)
           else [h])
        (heads r1)
  | Alt r1 r2 => (heads r1 ++ heads r2)%list
  end.

Lemma spans_heads (r : regex) :
  forall i j, spans r i j ->
              exists h j', In h (heads r)
                           /\ litMatch ic input (fst h) i = Some j'
                           /\ if snd h then j' = j else j' <= j.
Proof.
  induction r as [| p | | neg items | r1 IH1 r2 IH2 | r1 IH1 r2 IH2 | r IH | | r IH | r IH];
    intros i j Hs; cbn [heads].
  - inversion Hs; subst. exists (EmptyString, true), j. simpl; auto.
  - inversion Hs; subst. exists (p, true), j. simpl; auto.
  - inversion Hs; subst. exists (EmptyString, false), i. simpl. split; [auto |]. split; [reflexivity | lia].
  - inversion Hs as [| | | ? ? ? c Hg Hx | | | | | | | |]; subst.
    destruct neg.
    + exists (EmptyString, false), i. simpl. split; [auto |]. split; [reflexivity | lia].
    + destruct (onlyChars items) as [cs |] eqn:Hoc.
      * simpl in Hx. apply existsb_exists in Hx. destruct Hx as (it & Hin & Hc).
        destruct (onlyChars_In _ _ _ Hoc Hin) as (a & -> & Ha).
        exists (String a EmptyString, true), (S i).
        split; [apply in_map_iff; eauto |].
        split; [| reflexivity].
        cbn [fst litMatch]. rewrite Hg. simpl in Hc. now rewrite Hc.
      * exists (EmptyString, false), i. simpl. split; [auto |]. split; [reflexivity | lia].
  - inversion Hs as [| | | | ? ? ? m ? H1 H2 | | | | | | |]; subst.
    destruct (IH1 _ _ H1) as ([p1 x1] & j1 & Hin1 & Hm1 & Hc1).
    cbn [fst snd] in *. destruct x1.
    + subst j1.
      destruct (IH2 _ _ H2) as ([p2 x2] & j2 & Hin2 & Hm2 & Hc2).
      cbn [fst snd] in *.
      exists (p1 ++ p2, x2), j2.
      split; [| split; [eapply litMatch_app; eauto | exact Hc2]].
      apply in_flat_map. exists (p1, true). split; [exact Hin1 |].
      cbn [snd fst]. apply in_map_iff. exists (p2, x2). auto.
    + exists (p1, false), j1.
      split; [| split; [exact Hm1 |]].
      * apply in_flat_map. exists (p1, false). split; [exact Hin1 |]. simpl; auto.
      * cbn [snd]. apply spans_le in H2. lia.
  - inversion Hs; subst.
    + match goal with H1 : spans r1 _ _ |- _ =>
        destruct (IH1 _ _ H1) as (h & j' & Hin & Hm & Hc) end.
      exists h, j'. split; [apply in_or_app; auto | auto].
    + match goal with H2 : spans r2 _ _ |- _ =>
        destruct (IH2 _ _ H2) as (h & j' & Hin & Hm & Hc) end.
      exists h, j'. split; [apply in_or_app; auto | auto].
  - apply spans_le in Hs.
    exists (EmptyString, false), i. simpl. split; [auto |]. split; [reflexivity | lia].
  - inversion Hs; subst. exists (EmptyString, true), j. simpl; auto.
  - inversion Hs; subst. exists (EmptyString, true), j. simpl; auto.
  - inversion Hs; subst. exists (EmptyString, true), j. simpl; auto.
Qed.

End Spans.

Lemma lower_upper (c : ascii) : Js.lowerChar (upperChar c) = Js.lowerChar c.
Proof. destruct c as [[] [] [] [] [] [] [] []]; reflexivity. Qed.

Lemma sameChar_lower (ic : bool) (c a : ascii) :
  sameChar ic c a = true -> Js.lowerChar c = Js.lowerChar a.
Proof.
  unfold sameChar, canonicalize. intros H. apply Ascii.eqb_eq in H.
  destruct ic; [| now subst].
  rewrite <- (lower_upper c), <- (lower_upper a). now rewrite H.
Qed.

Lemma sameString_lower (ic : bool) (m p : string) :
  sameString ic m p = true -> Js.toLowerCase m = Js.toLowerCase p.
Proof.
  revert p; induction m as [| c m IH]; intros [| a p] H; simpl in H;
    try discriminate; [reflexivity |].
  apply andb_true_iff in H. destruct H as [Hc Hs].
  simpl. now rewrite (sameChar_lower _ _ _ Hc), (IH _ Hs).
Qed.

Lemma samePrefix_lower (ic : bool) (m p : string) :
  samePrefix ic m p = true ->
  prefix (Js.toLowerCase p) (Js.toLowerCase m) = true.
Proof.
  revert m; induction p as [| a p IH]; intros m H.
  - destruct m; reflexivity.
  - destruct m as [| c m]; simpl in H; [discriminate |].
    apply andb_true_iff in H. destruct H as [Hc Hs].
    simpl. rewrite (sameChar_lower _ _ _ Hc).
    destruct (ascii_dec (Js.lowerChar a) (Js.lowerChar a)); [| congruence].
    now apply IH.
Qed.

(** An excerpt agrees with a head: it is the head's text up to case, or
    begins with it. *)
Definition agrees (m : string) (h : string * bool) : Prop :=
  if snd h then Js.toLowerCase m = Js.toLowerCase (fst h)
  else prefix (Js.toLowerCase (fst h)) (Js.toLowerCase m) = true.

(** The excerpt of a pattern agrees with one of the pattern's heads. *)
Lemma match0_heads (re : t) (text m : string) :
  match0 text re = Some m ->
  exists h, In h (heads (source re)) /\ agrees m h.
Proof.
  unfold match0, exec. intros H.
  destruct (execFrom _ _ _ _ _) as [[b e] |] eqn:He; [| discriminate].
  inversion H; subst; clear H.
  apply execFrom_sound in He.
  destruct (spans_heads _ _ _ _ _ He) as ([p x] & j' & Hin & Hm & Hc).
  exists (p, x). split; [exact Hin |].
  cbn [fst snd] in *. unfold agrees, Js.slice. cbn [fst snd].
  destruct x.
  - subst j'. apply litMatch_spec in Hm. destruct Hm as [-> Hm].
    apply sameString_lower in Hm.
    now replace (b + length p - b) with (length p) by lia.
  - pose proof (litMatch_spec _ _ _ _ _ Hm) as [Hj _].
    apply (samePrefix_lower (ignoreCase re)).
    eapply litMatch_prefix; [exact Hm | lia].
Qed.

(** A pattern all of whose heads are whole strings: its excerpt is one of
    them, up to case. *)
Lemma match0_literals (re : t) (text m : string) :
  forallb snd (heads (source re)) = true ->
  match0 text re = Some m ->
  exists p, In p (map fst (heads (source re)))
            /\ Js.toLowerCase m = Js.toLowerCase p.
Proof.
  intros Hall H. apply match0_heads in H. destruct H as ([p x] & Hin & Ha).
  rewrite forallb_forall in Hall. specialize (Hall _ Hin). cbn [snd] in Hall.
  subst x. exists p. split; [| exact Ha].
  apply in_map_iff. exists (p, true). auto.
Qed.

(** *** Excerpts of different rules *)

Lemma prefix_comparable (p q m : string) :
  prefix p m = true -> prefix q m = true ->
  prefix p q = true \/ prefix q p = true.
Proof.
  revert p q; induction m as [| c m IH]; intros p q Hp Hq.
  - destruct p; [| discriminate]. left. destruct q; reflexivity.
  - destruct p as [| a p]; [left; destruct q; reflexivity |].
    destruct q as [| b q]; [right; reflexivity |].
    simpl in Hp, Hq |- *.
    destruct (ascii_dec a c) as [-> |]; [| discriminate].
    destruct (ascii_dec b c) as [-> |]; [| discriminate].
    destruct (ascii_dec c c); [| congruence].
    now apply IH.
Qed.

(** Two heads that no excerpt can agree with at once. *)
Definition clash (h1 h2 : string * bool) : bool :=
  let p := Js.toLowerCase (fst h1) in
  let q := Js.toLowerCase (fst h2) in
  match snd h1, snd h2 with
  | true, true => negb (String.eqb p q)
  | true, false => negb (prefix q p)
  | false, true => negb (prefix p q)
  | false, false => negb (prefix p q) && negb (prefix q p)
  end.

Lemma clash_sound (m : string) (h1 h2 : string * bool) :
  clash h1 h2 = true -> agrees m h1 -> agrees m h2 -> False.
Proof.
  destruct h1 as [p [|]], h2 as [q [|]]; unfold clash, agrees; cbn [fst snd];
    intros Hc H1 H2.
  - rewrite <- H1, <- H2, String.eqb_refl in Hc. discriminate.
  - rewrite <- H1, H2 in Hc. discriminate.
  - rewrite <- H2, H1 in Hc. discriminate.
  - destruct (prefix_comparable _ _ _ H1 H2) as [H | H]; rewrite H in Hc;
      [| rewrite andb_false_r in Hc]; discriminate.
Qed.

(** Two patterns whose excerpts always differ. *)
Definition apart (r1 r2 : t) : bool :=
  forallb (fun h1 => forallb (clash h1) (heads (source r2))) (heads (source r1)).

Lemma apart_sound (r1 r2 : t) (text m1 m2 : string) :
  apart r1 r2 = true ->
  match0 text r1 = Some m1 -> match0 text r2 = Some m2 -> m1 <> m2.
Proof.
  intros Ha H1 H2 <-.
  apply match0_heads in H1. destruct H1 as (h1 & Hin1 & Hg1).
  apply match0_heads in H2. destruct H2 as (h2 & Hin2 & Hg2).
  unfold apart in Ha. rewrite forallb_forall in Ha.
  specialize (Ha _ Hin1). rewrite forallb_forall in Ha. specialize (Ha _ Hin2).
  exact (clash_sound _ _ _ Ha Hg1 Hg2).
Qed.

Fixpoint pairwiseApart (rules : list t) : bool :=
  match rules with
  | [] => true
  | r :: rest => forallb (apart r) rest && pairwiseApart rest
  end.

Lemma test_match0 (re : t) (text : string) :
  test re text = match match0 text re with Some _ => true | None => false end.
Proof.
  unfold test, match0. destruct (exec re text) as [[b e] |]; reflexivity.
Qed.

End RegExpFacts.

(* ================================================================= *)
(** ** Properties of the fidelity score *)

Module FidelityFacts.

Import Fidelity Spec.
Import RegExp(Lit).

Lemma found_marked (ms : list string) :
  found (marked (unmarked ms)) = triggered (marked (unmarked ms)).
Proof. destruct ms; reflexivity. Qed.

Lemma countTrue_howMany (items : list bool) : countTrue items = howMany items.
Proof.
  unfold countTrue.
  induction items as [| [] items IH]; simpl; congruence.
Qed.

Lemma howMany_le (items : list bool) : howMany items <= List.length items.
Proof. induction items as [| [] items IH]; simpl; lia. Qed.

Lemma clamp_max_min (x : Z) : Z.max 0 (Z.min 100 x) = clamp x 0 100.
Proof.
  unfold clamp.
  destruct (Z.ltb_spec x 0), (Z.ltb_spec 100 x); lia.
Qed.

Lemma In_findMatches_None (text : string) (rules : list RegExp.t) (m : string) :
  In m (findMatches text rules None) ->
  exists r, In r rules /\ RegExp.match0 text r = Some m.
Proof.
  induction rules as [| r rules IH]; simpl; [tauto |].
  destruct (RegExp.match0 text r) as [m0 |] eqn:Hm; simpl.
  - intros [<- | H]; [eauto |].
    destruct (IH H) as (r' & Hin & Hr'). eauto.
  - intros H. destruct (IH H) as (r' & Hin & Hr'). eauto.
Qed.

(** Rules whose excerpts always differ from one another leave a list of
    excerpts without repetition. *)
Lemma findMatches_NoDup (text : string) (rules : list RegExp.t) :
  RegExpFacts.pairwiseApart rules = true ->
  NoDup (findMatches text rules None).
Proof.
  induction rules as [| r rules IH]; simpl; intros H; [constructor |].
  apply andb_true_iff in H. destruct H as [Hr Hrest].
  destruct (RegExp.match0 text r) as [m |] eqn:Hm; simpl; [| auto].
  constructor; [| auto].
  intros Hin. apply In_findMatches_None in Hin.
  destruct Hin as (r' & Hin' & Hm').
  rewrite forallb_forall in Hr.
  exact (RegExpFacts.apart_sound r r' text m m (Hr _ Hin') Hm Hm' eq_refl).
Qed.

Section Score.

Variable t : string.

Let s := calculateFidelityScore t.
Let pos := breakdown s.
Let neg := antiPatterns s.

(** The [found] flag of each of the nine categories of a score says
    whether the category has a matched excerpt. *)
Lemma found_is_triggered :
  found (frameworkReference pos) = triggered (frameworkReference pos)
  /\ found (jtbdQuestion pos) = triggered (jtbdQuestion pos)
  /\ found (humility pos) = triggered (humility pos)
  /\ found (caseStudy pos) = triggered (caseStudy pos)
  /\ found (constraints pos) = triggered (constraints pos)
  /\ found (story pos) = triggered (story pos)
  /\ found (overconfidence neg) = triggered (overconfidence neg)
  /\ found (dismissive neg) = triggered (dismissive neg)
  /\ found (generic neg) = triggered (generic neg).
Proof. repeat split; apply found_marked. Qed.

Lemma mustIncludeScore_eq :
  mustIncludeScore s =
  howMany [ triggered (frameworkReference pos); triggered (jtbdQuestion pos);
            triggered (humility pos); triggered (caseStudy pos);
            triggered (constraints pos) ].
Proof.
  destruct found_is_triggered as (H1 & H2 & H3 & H4 & H5 & _).
  rewrite <- H1, <- H2, <- H3, <- H4, <- H5.
  apply countTrue_howMany.
Qed.

Lemma antiPatternPenalty_eq :
  antiPatternPenalty s =
  penaltyOf (triggered (overconfidence neg)) (triggered (dismissive neg))
            (triggered (generic neg)).
Proof.
  destruct found_is_triggered as (_ & _ & _ & _ & _ & _ & H7 & H8 & H9).
  rewrite <- H7, <- H8, <- H9. reflexivity.
Qed.

Lemma overall_eq :
  overall s =
  clamp (Z.of_nat (mustIncludeScore s) * 10 + Z.of_nat (shouldIncludeScore s) * 10
         - antiPatternPenalty s) 0 100.
Proof. apply clamp_max_min. Qed.

Lemma passed_eq :
  passed s =
  (4 <=? mustIncludeScore s)
  && negb (triggered (dismissive neg))
  && negb (triggered (overconfidence neg)).
Proof.
  destruct found_is_triggered as (_ & _ & _ & _ & _ & _ & H7 & H8 & _).
  rewrite <- H7, <- H8. reflexivity.
Qed.

Lemma shouldIncludeScore_eq :
  shouldIncludeScore s =
  howMany [ triggered (story pos);
            2 <=? List.length (matches (frameworkReference pos));
            2 <=? List.length (matches (humility pos));
            triggered (jtbdQuestion pos) && triggered (constraints pos) ].
Proof.
  destruct found_is_triggered as (_ & H2 & _ & _ & H5 & H6 & _).
  rewrite <- H2, <- H5, <- H6.
  unfold s at 1, shouldIncludeScore, calculateFidelityScore.
  rewrite countTrue_howMany. reflexivity.
Qed.

End Score.

(** C1.  For every text the overall score is the sum of ten points per
    triggered required category and ten per recommended check, less the
    penalty, clamped to the interval from 0 to 100; the penalty is 10 for
    overconfidence, 15 for dismissiveness (as left by the suppression) and
    5 for generic advice, each counted on its own and added up; and the
    overall score lies between 0 and 100. *)
Theorem overall_is_clamped_sum (t : string) :
  let s := calculateFidelityScore t in
  let penalty :=
    penaltyOf (triggered (overconfidence (antiPatterns s)))
              (triggered (dismissive (antiPatterns s)))
              (triggered (generic (antiPatterns s))) in
  antiPatternPenalty s = penalty
  /\ matches (dismissive (antiPatterns s))
     = findMatches t (n_dismissive NEGATIVE_PATTERNS) (Some "dismissive")
  /\ overall s
     = clamp (Z.of_nat (mustIncludeScore s) * 10
              + Z.of_nat (shouldIncludeScore s) * 10 - penalty) 0 100
  /\ (0 <= overall s <= 100)%Z.
Proof.
  intros s penalty.
  assert (Hp : antiPatternPenalty s = penalty) by apply antiPatternPenalty_eq.
  split; [exact Hp |].
  split; [reflexivity |].
  split.
  - rewrite <- Hp. apply overall_eq.
  - unfold s. rewrite overall_eq. unfold clamp.
    repeat match goal with
           | |- context [(?a <? ?b)%Z] => destruct (Z.ltb_spec a b)
           end; lia.
Qed.

(** C4.  A text passes exactly when at least four required categories are
    triggered and neither the overconfidence nor the dismissive category
    is; the generic-advice category has no part in the verdict, and with
    fewer than four required categories the text fails whatever the
    penalty. *)
Theorem passed_iff_gate (t : string) :
  let s := calculateFidelityScore t in
  (passed s = true <->
   4 <= mustIncludeScore s
   /\ triggered (overconfidence (antiPatterns s)) = false
   /\ triggered (dismissive (antiPatterns s)) = false)
  /\ (mustIncludeScore s < 4 -> passed s = false).
Proof.
  intros s. unfold s. rewrite passed_eq.
  set (n := mustIncludeScore (calculateFidelityScore t)).
  destruct (Nat.leb_spec 4 n) as [Hn | Hn];
    destruct (triggered (overconfidence _)), (triggered (dismissive _));
    simpl; (split; [split; [intros H | intros (H1 & H2 & H3)] | intros H]);
    try discriminate; try lia; auto.
Qed.

(** C8.  The count of recommended checks is the number that hold among:
    the story category is triggered; the framework category has at least
    two excerpts; the humility category has at least two excerpts; the
    job-question and the constraint categories are both triggered.  Each is
    read off the category results of the same score, the count is at most
    four, and the excerpts of the framework category, as those of the
    humility category, differ from one another. *)
Theorem shouldInclude_from_categories (t : string) :
  let s := calculateFidelityScore t in
  let b := breakdown s in
  shouldIncludeScore s =
  howMany [ triggered (story b);
            2 <=? List.length (matches (frameworkReference b));
            2 <=? List.length (matches (humility b));
            triggered (jtbdQuestion b) && triggered (constraints b) ]
  /\ shouldIncludeScore s <= 4
  /\ NoDup (matches (frameworkReference b))
  /\ NoDup (matches (humility b)).
Proof.
  intros s b.
  assert (H := shouldIncludeScore_eq t). fold s in H. fold b in H.
  split; [exact H |].
  split; [rewrite H; apply (howMany_le [_; _; _; _]) |].
  split; apply findMatches_NoDup; vm_compute; reflexivity.
Qed.

(** *** The suppression rule of the dismissive category *)

Lemma findMatches_None_nonempty (text : string) (rules : list RegExp.t) :
  match findMatches text rules None with [] => false | _ :: _ => true end
  = someRuleMatches rules text.
Proof.
  unfold someRuleMatches.
  induction rules as [| r rules IH]; simpl; [reflexivity |].
  rewrite RegExpFacts.test_match0.
  destruct (RegExp.match0 text r); simpl; auto.
Qed.

Lemma findMatches_unskipped (text : string) (rules : list RegExp.t)
  (category : option string) :
  (forall r m, In r rules -> RegExp.match0 text r = Some m ->
               skipped text category m = false) ->
  findMatches text rules category = findMatches text rules None.
Proof.
  induction rules as [| r rules IH]; intros H; simpl; [reflexivity |].
  rewrite IH by (intros; eapply H; simpl; eauto).
  destruct (RegExp.match0 text r) as [m |] eqn:Hm; [| reflexivity].
  now rewrite (H r m (or_introl eq_refl) Hm).
Qed.

Lemma stupid_excerpt (text m : string) :
  RegExp.match0 text stupidRule = Some m -> Js.toLowerCase m = "stupid".
Proof.
  intros H.
  apply RegExpFacts.match0_literals in H; [| vm_compute; reflexivity].
  destruct H as (p & Hin & ->).
  vm_compute in Hin. destruct Hin as [<- | []]. reflexivity.
Qed.

Lemma other_excerpts (text : string) (r : RegExp.t) (m : string) :
  In r otherDismissiveRules -> RegExp.match0 text r = Some m ->
  Js.includes (Js.toLowerCase m) "stupid" = false.
Proof.
  unfold otherDismissiveRules. cbn [tl n_dismissive NEGATIVE_PATTERNS In].
  intros Hin H.
  repeat (destruct Hin as [<- | Hin]); try contradiction;
    (apply RegExpFacts.match0_literals in H; [| vm_compute; reflexivity]);
    destruct H as (p & Hp & ->); vm_compute in Hp;
    repeat (destruct Hp as [<- | Hp]); try contradiction; reflexivity.
Qed.

Lemma dismissive_matches (text : string) :
  findMatches text (n_dismissive NEGATIVE_PATTERNS) (Some "dismissive")
  = if isChristensenStupidContext text
    then findMatches text otherDismissiveRules None
    else findMatches text (n_dismissive NEGATIVE_PATTERNS) None.
Proof.
  change (n_dismissive NEGATIVE_PATTERNS) with (stupidRule :: otherDismissiveRules).
  cbn [findMatches].
  assert (Ho : findMatches text otherDismissiveRules (Some "dismissive")
               = findMatches text otherDismissiveRules None).
  { apply findMatches_unskipped. intros r m Hin Hm.
    unfold skipped. rewrite (other_excerpts text r m Hin Hm).
    now rewrite andb_false_r. }
  rewrite Ho.
  destruct (RegExp.match0 text stupidRule) as [m |] eqn:Hm.
  - unfold skipped. rewrite (stupid_excerpt text m Hm).
    change (String.eqb "dismissive" "dismissive") with true.
    change (Js.includes "stupid" "stupid") with true.
    cbn [andb].
    destruct (isChristensenStupidContext text); reflexivity.
  - destruct (isChristensenStupidContext text); reflexivity.
Qed.

(** C5, as the code has it.  An excerpt of the rule of the word "stupid"
    is that word; when either exoneration pattern matches anywhere in the
    text that excerpt is dropped and the excerpts of the four other rules
    are kept, so the category triggers exactly when one of those four
    rules matches; when no exoneration pattern matches every excerpt is
    kept and the category triggers exactly when some rule matches. *)
Theorem suppression_of_stupid (text : string) :
  let d := dismissive (antiPatterns (calculateFidelityScore text)) in
  (forall m, RegExp.match0 text stupidRule = Some m -> Js.toLowerCase m = "stupid")
  /\ matches d
     = (if isChristensenStupidContext text
        then findMatches text otherDismissiveRules None
        else findMatches text (n_dismissive NEGATIVE_PATTERNS) None)
  /\ triggered d
     = (if isChristensenStupidContext text
        then someRuleMatches otherDismissiveRules text
        else someRuleMatches (n_dismissive NEGATIVE_PATTERNS) text).
Proof.
  intros d.
  assert (Hm : matches d
               = if isChristensenStupidContext text
                 then findMatches text otherDismissiveRules None
                 else findMatches text (n_dismissive NEGATIVE_PATTERNS) None)
    by apply dismissive_matches.
  split; [intros m; apply stupid_excerpt |].
  split; [exact Hm |].
  unfold triggered. rewrite Hm.
  destruct (isChristensenStupidContext text); apply findMatches_None_nonempty.
Qed.

Lemma suppression_of_stupid_witness :
  let exonerated :=
    "You are stupid. It's not that managers are stupid - they're rational." in
  let bare := "You are stupid." in
  RegExp.match0 exonerated stupidRule = Some "stupid"
  /\ RegExp.match0 bare stupidRule = Some "stupid"
  /\ triggered (dismissive (antiPatterns (calculateFidelityScore exonerated))) = false
  /\ triggered (dismissive (antiPatterns (calculateFidelityScore bare))) = true.
Proof.
  intros exonerated bare.
  split; [vm_compute; reflexivity |].
  split; [vm_compute; reflexivity |].
  split.
  - rewrite (proj2 (proj2 (suppression_of_stupid exonerated))).
    vm_compute. reflexivity.
  - rewrite (proj2 (proj2 (suppression_of_stupid bare))).
    vm_compute. reflexivity.
Defined.

(** C5 fails as worded: with the exoneration phrase in the text, the
    trigger "obviously wrong" is kept and the category triggers. *)
Lemma exoneration_spares_only_stupid :
  let text :=
    "That is obviously wrong. It's not that managers are stupid - they're rational." in
  isChristensenStupidContext text = true
  /\ RegExp.match0 text (ri [b; Lit "obviously wrong"; b]) = Some "obviously wrong"
  /\ matches (dismissive (antiPatterns (calculateFidelityScore text)))
     = ["obviously wrong"]
  /\ triggered (dismissive (antiPatterns (calculateFidelityScore text))) = true.
Proof. vm_compute. intuition. Qed.

Lemma passed_iff_gate_witness :
  let text :=
    "The theory would predict disruption: what job does steel do? Best practices say so." in
  let s := calculateFidelityScore text in
  mustIncludeScore s = 4
  /\ triggered (generic (antiPatterns s)) = true
  /\ passed s = true
  /\ passed (calculateFidelityScore EmptyString) = false.
Proof.
  intros text s.
  assert (H4 : mustIncludeScore s = 4) by (vm_compute; reflexivity).
  split; [exact H4 |].
  split; [vm_compute; reflexivity |].
  split.
  - apply (proj1 (passed_iff_gate text)).
    fold s. rewrite H4. split; [lia |]. split; vm_compute; reflexivity.
  - apply (proj2 (passed_iff_gate EmptyString)). vm_compute. lia.
Defined.

End FidelityFacts.

(* ================================================================= *)
(** ** Properties of the case-study lookup *)

Module CaseStudyFacts.

Import Disruption CaseStudyTool.

(** The ids of the library's own enumeration. *)
Definition libraryIds : list string := map fst CANONICAL_CASES.

Lemma find_absent {A : Type} (obj : list (string * A)) (key : string) :
  ~ In key (map fst obj) ->
  find (fun kv => String.eqb (fst kv) key) obj = None.
Proof.
  induction obj as [| [k v] obj IH]; simpl; intros H; [reflexivity |].
  destruct (String.eqb_spec k key) as [-> | Hne]; [tauto |].
  apply IH. tauto.
Qed.

Lemma existsb_absent (key : string) (keys : list string) :
  ~ In key keys -> existsb (String.eqb key) keys = false.
Proof.
  induction keys as [| k keys IH]; simpl; intros H; [reflexivity |].
  destruct (String.eqb_spec key k) as [-> | Hne]; [tauto |].
  apply IH. tauto.
Qed.

Lemma starts_differently (a b : string) :
  get 0 a <> get 0 b -> a <> b.
Proof. intros H ->. now apply H. Qed.

(** C9, as the code has it.  An id that is neither in the library nor
    the name of a member every object inherits gets the not-found message
    as an ordinary return value, and an id of the library's enumeration
    gets a description, which is not that message; neither throws. *)
Theorem unknown_id_returns_message (caseName : string) :
  (~ In caseName libraryIds ->
   ~ In caseName Js.objectPrototypeKeys ->
   getCaseStudyDetail caseName
   = Js.Return ("Case study " ++ Js.dq ++ caseName ++ Js.dq ++ " not found."))
  /\ (In caseName libraryIds ->
      exists text, getCaseStudyDetail caseName = Js.Return text
                   /\ text <> notFoundMessage caseName).
Proof.
  split.
  - intros Hlib Hproto. unfold getCaseStudyDetail, Js.getProperty.
    rewrite (find_absent CANONICAL_CASES caseName Hlib).
    now rewrite (existsb_absent _ _ Hproto).
  - unfold libraryIds, CANONICAL_CASES. cbn [map fst In].
    intros H.
    repeat (destruct H as [<- | H]); try contradiction;
      (eexists; split; [vm_compute; reflexivity |]);
      apply starts_differently; vm_compute; discriminate.
Qed.

Lemma unknown_id_returns_message_witness :
  getCaseStudyDetail "netflix_streaming"
  = Js.Return ("Case study " ++ Js.dq ++ "netflix_streaming" ++ Js.dq ++ " not found.")
  /\ exists text, getCaseStudyDetail "disk_drives" = Js.Return text
                  /\ text <> notFoundMessage "disk_drives".
Proof.
  split.
  - apply (proj1 (unknown_id_returns_message "netflix_streaming"));
      vm_compute; intuition discriminate.
  - apply (proj2 (unknown_id_returns_message "disk_drives")).
    vm_compute. auto.
Defined.

(** C9 fails as worded: an id outside the library comes back with a
    string, not with an error. *)
Lemma unknown_id_does_not_throw :
  ~ In "blockbuster" libraryIds
  /\ getCaseStudyDetail "blockbuster" = Js.Return (notFoundMessage "blockbuster")
  /\ forall e, getCaseStudyDetail "blockbuster" <> Js.Throw e.
Proof.
  split; [vm_compute; intuition discriminate |].
  split; [vm_compute; reflexivity |].
  intros e. vm_compute. discriminate.
Qed.

(** C10.  The schema lists "milkshake" among its five case names, the
    table of cases has the four other keys only, the lookup of
    "milkshake" returns the not-found message, and every match result
    bears the name of one of the four records. *)
Theorem milkshake_is_not_in_the_table :
  In "milkshake" caseNameEnum
  /\ List.length caseNameEnum = 5
  /\ map fst CANONICAL_CASES
     = ["steel_minimills"; "disk_drives"; "honda_motorcycles";
        "intel_microprocessors"]
  /\ getCaseStudyDetail "milkshake"
     = Js.Return ("Case study " ++ Js.dq ++ "milkshake" ++ Js.dq ++ " not found.")
  /\ (forall observations e,
        In e (matchToCaseStudies observations) ->
        In (Types.name e)
           ["Steel Mini-Mills"; "Disk Drive Generations";
            "Honda Motorcycles in America"; "Intel's Pivot to Microprocessors"]).
Proof.
  split; [simpl; auto |].
  split; [reflexivity |].
  split; [reflexivity |].
  split; [vm_compute; reflexivity |].
  intros observations e He.
  apply DisruptionFacts.In_output in He.
  destruct He as (entry & Hin & _ & ->).
  unfold CANONICAL_CASES in Hin. cbn [In] in Hin.
  repeat (destruct Hin as [<- | Hin]); try contradiction; simpl; auto.
Qed.

Lemma milkshake_is_not_in_the_table_witness :
  let observations := ["What job is the milkshake hired for"; "new form factor"] in
  map Types.name (matchToCaseStudies observations) = ["Disk Drive Generations"]
  /\ In "Disk Drive Generations"
        ["Steel Mini-Mills"; "Disk Drive Generations";
         "Honda Motorcycles in America"; "Intel's Pivot to Microprocessors"].
Proof.
  intros observations.
  split; [vm_compute; reflexivity |].
  destruct milkshake_is_not_in_the_table as (_ & _ & _ & _ & H).
  apply (H observations (DisruptionFacts.referenceOf observations disk_drives)).
  vm_compute. auto.
Defined.

End CaseStudyFacts.

(* ================================================================= *)
(** ** The functions on sample inputs *)

Module Examples.

Import Fidelity.

(** The empty text scores nothing and fails. *)
Example score_of_empty_text :
  let s := calculateFidelityScore EmptyString in
  (mustIncludeScore s, shouldIncludeScore s, antiPatternPenalty s, overall s, passed s)
  = (0, 0, 0%Z, 0%Z, false).
Proof. vm_compute. reflexivity. Qed.

(** Five required categories and four recommended checks, less the
    penalties of an overconfident and a generic phrase; the overconfident
    phrase alone fails the text. *)
Example score_of_full_text :
  let s := calculateFidelityScore
    "The theory would predict disruption here; jobs-to-be-done: what job is the customer hiring this product for? Consider the case of steel mini-mills. It depends on the business model and processes. Here's a 12-step plan, 100% guaranteed." in
  (mustIncludeScore s, shouldIncludeScore s, antiPatternPenalty s, overall s, passed s)
  = (5, 4, 15%Z, 75%Z, false)
  /\ matches (jtbdQuestion (breakdown s)) = ["what job"; "hiring this product"]
  /\ matches (overconfidence (antiPatterns s)) = ["guaranteed"]
  /\ matches (generic (antiPatterns s)) = ["Here's a 12-step plan"].
Proof. vm_compute. auto. Qed.

(** The lookbehind of the rule of "stupid" keeps the rule from matching
    after "not that", with no exoneration pattern in the text. *)
Example stupid_after_not_that :
  let text := "It is not that he is stupid" in
  RegExp.match0 text Spec.stupidRule = None
  /\ isChristensenStupidContext text = false
  /\ matches (dismissive (antiPatterns (calculateFidelityScore text))) = [].
Proof. vm_compute. auto. Qed.

(** The second exoneration pattern. *)
Example stupid_after_dismissing :
  let text := "Calling them stupid helps nobody; dismissing managers as stupid misses the point" in
  RegExp.match0 text Spec.stupidRule = Some "stupid"
  /\ isChristensenStupidContext text = true
  /\ matches (dismissive (antiPatterns (calculateFidelityScore text))) = [].
Proof. vm_compute. auto. Qed.

(** A high match is listed before a low one that comes first in the
    table. *)
Example high_before_low :
  map (fun e => (Types.name e, Types.matchStrength e))
      (Disruption.matchToCaseStudies
         [ "Incumbent has high fixed-cost structure";
           "Core business facing commoditization";
           "Adjacent opportunity emerging";
           "Requires fundamental priority shift" ])
  = [ ("Intel's Pivot to Microprocessors", Types.high);
      ("Steel Mini-Mills", Types.low) ].
Proof. vm_compute. reflexivity. Qed.

(** A paraphrase that shares no leading 20 characters with a descriptor
    matches nothing. *)
Example paraphrase_does_not_match :
  Disruption.matchToCaseStudies
    ["entrant has a fundamentally different cost structure and quality keeps improving toward mainstream"]
  = [].
Proof. vm_compute. reflexivity. Qed.

(** A name that every object inherits passes the not-found test and the
    template then fails. *)
Example inherited_name_throws :
  CaseStudyTool.getCaseStudyDetail "toString" = Js.Throw Js.TypeError.
Proof. vm_compute. reflexivity. Qed.

End Examples.

(* ================================================================= *)
(** ** tools/analyze-decision.ts: the case studies of a decision *)

Module AnalyzeDecision.

Import Types(ConfidenceLevel, high, medium, low, uncertain, CaseStudyReference).

(** A confidence level in a template literal: the string it is. *)
Definition levelName (c : ConfidenceLevel) : string :=
  match c with
  | high => "high"
  | medium => "medium"
  | low => "low"
  | uncertain => "uncertain"
  end.

(** [inputText] of [analyzeDecision]: the decision, a blank and the
    context ([context ?? ""]), lower-cased. *)
Definition inputTextOf (decision : string) (context : option string) : string :=
  Js.toLowerCase
    (decision ++ " " ++ match context with
                        | Some c => c
                        | None => EmptyString
                        end).

(** [xs.push(x)] under a condition. *)
Definition pushIf (cond : bool) (x : string) (xs : list string) : list string :=
  if cond then (xs ++ [x])%list else xs.

(** The five tests that fill [potentialSignals]. *)
Definition potentialSignalsOf (inputText : string) : list string :=
  let has := Js.includes inputText in
  let s0 := [] in
  let s1 := pushIf (has "cheap" || has "low cost" || has "budget")
                   "Lower cost structure" s0 in
  let s2 := pushIf (has "simple" || has "easier") "Simpler solution" s1 in
  let s3 := pushIf (has "enterprise" || has "upmarket") "Moving upmarket" s2 in
  let s4 := pushIf (has "new market" || has "non-consumer")
                   "Enables new use cases" s3 in
  let s5 := pushIf (has "incumbent" || has "established")
                   "Incumbent has high-cost structure" s4 in
  s5.

(** [caseMatches] of [analyzeDecision]. *)
Definition caseMatchesOf (decision : string) (context : option string)
  : list CaseStudyReference :=
  Disruption.matchToCaseStudies (potentialSignalsOf (inputTextOf decision context)).

(** The text under "Potentially Relevant Case Studies" in the response. *)
Definition caseStudiesSection (caseMatches : list CaseStudyReference) : string :=
  if 0 <? List.length caseMatches then
    Js.join Js.nl
      (map (fun c =>
              Js.nl ++ "### " ++ Types.name c ++ Js.nl
              ++ "**Pattern**: " ++ Types.pattern c ++ Js.nl
              ++ "**Relevance**: " ++ Types.relevance c ++ Js.nl
              ++ "**Match Strength**: " ++ levelName (Types.matchStrength c) ++ Js.nl)
           caseMatches)
  else "No strong case study matches detected from initial signals. Deeper analysis may reveal patterns.".

End AnalyzeDecision.

(* ================================================================= *)
(** ** Further properties of case-study matching *)

Module MatchingMore.

Import Disruption Spec DisruptionFacts.
Import Types(ConfidenceLevel, high, medium, low, uncertain, CaseStudyReference).

(** What a match result says apart from its relevance text. *)
Definition summary (e : CaseStudyReference) : string * string * ConfidenceLevel :=
  (Types.name e, Types.pattern e, Types.matchStrength e).

Lemma lowerChar_idem (c : ascii) : Js.lowerChar (Js.lowerChar c) = Js.lowerChar c.
Proof. destruct c as [[] [] [] [] [] [] [] []]; reflexivity. Qed.

Lemma toLowerCase_idem (s : string) :
  Js.toLowerCase (Js.toLowerCase s) = Js.toLowerCase s.
Proof.
  induction s as [| c s IH]; simpl; [reflexivity |].
  now rewrite lowerChar_idem, IH.
Qed.

Lemma outerLoop_lower (cs : CaseStudyPattern) :
  forall obs obs' st,
    map Js.toLowerCase obs = map Js.toLowerCase obs' ->
    outerLoop obs cs st = outerLoop obs' cs st.
Proof.
  induction obs as [| u obs IH]; intros [| u' obs'] st H; simpl in H;
    try discriminate; [reflexivity |].
  inversion H as [[Hu Hrest]]. cbn [outerLoop]. rewrite Hu.
  now apply IH.
Qed.

(** X1.  Observations that agree up to letter case give the same
    output. *)
Theorem matching_ignores_case (obs obs' : list string) :
  map Js.toLowerCase obs = map Js.toLowerCase obs' ->
  matchToCaseStudies obs = matchToCaseStudies obs'.
Proof.
  intros H. unfold matchToCaseStudies, collectMatches. f_equal.
  apply flat_map_ext. intros entry. unfold visitCase.
  now rewrite (outerLoop_lower (snd entry) obs obs' (0, []) H).
Qed.

Lemma matching_ignores_case_witness :
  matchToCaseStudies ["NEW Form Factor"; "adjacent OPPORTUNITY emerging"]
  = matchToCaseStudies ["new form factor"; "Adjacent opportunity emerging"].
Proof. apply matching_ignores_case. vm_compute. reflexivity. Defined.

Lemma observationsMatching_app (a b : list string) (cs : CaseStudyPattern) :
  observationsMatching (a ++ b) cs
  = observationsMatching a cs + observationsMatching b cs.
Proof. unfold observationsMatching. now rewrite filter_app, length_app. Qed.

Lemma strengthOf_monotone (n m : nat) :
  n <= m -> (order (strengthOf m) <= order (strengthOf n))%Z.
Proof.
  unfold strengthOf. intros H.
  destruct (Nat.leb_spec 3 n), (Nat.leb_spec 3 m),
    (Nat.leb_spec 2 n), (Nat.leb_spec 2 m); simpl; lia.
Qed.

(** X2.  Further observations, before or after the ones given, never
    remove a record from the output nor lower its tier. *)
Theorem more_observations_never_hurt
  (before obs after : list string) (e : CaseStudyReference) :
  In e (matchToCaseStudies obs) ->
  exists e', In e' (matchToCaseStudies (before ++ obs ++ after))
             /\ Types.name e' = Types.name e
             /\ (order (Types.matchStrength e') <= order (Types.matchStrength e))%Z.
Proof.
  intros He. apply In_output in He.
  destruct He as (entry & Hin & Hpos & ->).
  rewrite matchCountOf_eq in Hpos.
  exists (referenceOf (before ++ obs ++ after) (snd entry)).
  assert (Hle : matchCountOf obs (snd entry)
                <= matchCountOf (before ++ obs ++ after) (snd entry)).
  { rewrite !matchCountOf_eq, !observationsMatching_app. lia. }
  split; [| split].
  - apply In_output. exists entry. split; [exact Hin |].
    split; [rewrite matchCountOf_eq in Hle; lia | reflexivity].
  - reflexivity.
  - cbn [referenceOf Types.matchStrength]. now apply strengthOf_monotone.
Qed.

Lemma more_observations_never_hurt_witness :
  let obs := ["new form factor"] in
  exists e', In e' (matchToCaseStudies (["unrelated remark"] ++ obs ++ ["Different performance dimensions"]))
             /\ Types.name e' = "Disk Drive Generations"
             /\ (order (Types.matchStrength e') <= order low)%Z.
Proof.
  intros obs.
  apply (more_observations_never_hurt ["unrelated remark"] obs
           ["Different performance dimensions"] (referenceOf obs disk_drives)).
  vm_compute. auto.
Defined.

Lemma filter_length_perm {A : Type} (f : A -> bool) (l l' : list A) :
  Permutation l l' -> List.length (filter f l) = List.length (filter f l').
Proof.
  induction 1 as [| x l l' H IH | x y l | l l' l'' H1 IH1 H2 IH2]; simpl.
  - reflexivity.
  - destruct (f x); simpl; now rewrite IH.
  - destruct (f x), (f y); reflexivity.
  - now rewrite IH1.
Qed.

Lemma map_flat_map {A B C : Type} (f : B -> C) (g : A -> list B) (l : list A) :
  map f (flat_map g l) = flat_map (fun x => map f (g x)) l.
Proof.
  induction l as [| x l IH]; simpl; [reflexivity |].
  now rewrite map_app, IH.
Qed.

Lemma map_insert {A B : Type} (f : A -> B) (cmp : A -> A -> Z) (cmp' : B -> B -> Z)
  (x : A) (l : list A) :
  (forall a b, cmp a b = cmp' (f a) (f b)) ->
  map f (Js.insert cmp x l) = Js.insert cmp' (f x) (map f l).
Proof.
  intros H. induction l as [| y l IH]; simpl; [reflexivity |].
  rewrite <- H. destruct (cmp x y <=? 0)%Z; simpl; [reflexivity | now rewrite IH].
Qed.

Lemma map_sort {A B : Type} (f : A -> B) (cmp : A -> A -> Z) (cmp' : B -> B -> Z)
  (l : list A) :
  (forall a b, cmp a b = cmp' (f a) (f b)) ->
  map f (Js.sort cmp l) = Js.sort cmp' (map f l).
Proof.
  intros H. induction l as [| x l IH]; simpl; [reflexivity |].
  now rewrite (map_insert f cmp cmp' _ _ H), IH.
Qed.

Lemma summary_visitCase (obs : list string) (entry : string * CaseStudyPattern) :
  map summary (visitCase obs entry)
  = if 0 <? matchCountOf obs (snd entry)
    then [(name (snd entry), pattern (snd entry),
           strengthOf (matchCountOf obs (snd entry)))]
    else [].
Proof.
  rewrite visitCase_eq. destruct (0 <? matchCountOf obs (snd entry)); reflexivity.
Qed.

(** X3.  The order of the observations changes neither which records are
    reported nor their tiers nor the order of the output. *)
Theorem matching_ignores_order (obs obs' : list string) :
  Permutation obs obs' ->
  map summary (matchToCaseStudies obs) = map summary (matchToCaseStudies obs').
Proof.
  intros Hp.
  assert (Hc : forall cs, matchCountOf obs cs = matchCountOf obs' cs).
  { intros cs. rewrite !matchCountOf_eq. unfold observationsMatching.
    now apply filter_length_perm. }
  unfold matchToCaseStudies.
  set (cmp' := fun a b : string * string * ConfidenceLevel =>
                 (order (snd a) - order (snd b))%Z).
  rewrite !(map_sort summary compareFn cmp') by reflexivity.
  f_equal. unfold collectMatches. rewrite !map_flat_map.
  apply flat_map_ext. intros entry.
  now rewrite !summary_visitCase, Hc.
Qed.

Lemma matching_ignores_order_witness :
  map summary (matchToCaseStudies ["new form factor"; "Adjacent opportunity emerging"])
  = map summary (matchToCaseStudies ["Adjacent opportunity emerging"; "new form factor"]).
Proof. apply matching_ignores_order. apply perm_swap. Defined.

Lemma includes_empty (s : string) : Js.includes s EmptyString = true.
Proof. destruct s; reflexivity. Qed.

Lemma filter_length_pos {A : Type} (f : A -> bool) (x : A) (l : list A) :
  In x l -> f x = true -> 1 <= List.length (filter f l).
Proof.
  induction l as [| y l IH]; simpl; [tauto |].
  intros [-> | Hin] Hf.
  - rewrite Hf. simpl. lia.
  - destruct (f y); simpl; [lia | auto].
Qed.

Lemma empty_matches_descriptor (d : string) : matchesDescriptor EmptyString d = true.
Proof.
  unfold matchesDescriptor, signalTest. simpl Js.toLowerCase.
  change (Js.slice EmptyString 0 20) with EmptyString.
  rewrite includes_empty. apply orb_true_r.
Qed.

(** X4.  An empty observation matches every descriptor: with one among
    the observations, all four records of the library are reported. *)
Theorem empty_observation_matches_all (obs : list string) :
  In EmptyString obs ->
  List.length (matchToCaseStudies obs) = 4
  /\ forall key record,
       In (key, record) CANONICAL_CASES ->
       In (referenceOf obs record) (matchToCaseStudies obs).
Proof.
  intros He.
  assert (Hpos : forall key record, In (key, record) CANONICAL_CASES ->
                                    0 < matchCountOf obs record).
  { intros key record Hin. rewrite matchCountOf_eq.
    apply (filter_length_pos _ EmptyString); [exact He |].
    assert (Hne : signals record <> []).
    { unfold CANONICAL_CASES in Hin. cbn [In] in Hin.
      repeat (destruct Hin as [Hin | Hin]); try contradiction;
        inversion Hin; subst; discriminate. }
    destruct (signals record) as [| d ds]; [contradiction |].
    cbn [existsb]. now rewrite empty_matches_descriptor. }
  split.
  - unfold matchToCaseStudies. rewrite JsFacts.length_sort.
    unfold collectMatches, CANONICAL_CASES. cbn [flat_map].
    rewrite !visitCase_eq. cbn [snd].
    rewrite !(proj2 (Nat.ltb_lt _ _)); [reflexivity | | | |];
      eapply Hpos; unfold CANONICAL_CASES; simpl; eauto.
  - intros key record Hin. apply In_output. exists (key, record).
    split; [exact Hin |]. split; [eapply Hpos; eauto | reflexivity].
Qed.

Lemma empty_observation_matches_all_witness :
  map Types.name (matchToCaseStudies ["unrelated"; EmptyString])
  = [ "Steel Mini-Mills"; "Disk Drive Generations";
      "Honda Motorcycles in America"; "Intel's Pivot to Microprocessors" ]
  /\ List.length (matchToCaseStudies ["unrelated"; EmptyString]) = 4.
Proof.
  split; [vm_compute; reflexivity |].
  assert (Hin : In EmptyString ["unrelated"; EmptyString]) by (simpl; auto).
  exact (proj1 (empty_observation_matches_all ["unrelated"; EmptyString] Hin)).
Defined.

Lemma insert_perm {A : Type} (cmp : A -> A -> Z) (x : A) (l : list A) :
  Permutation (Js.insert cmp x l) (x :: l).
Proof.
  induction l as [| y l IH]; simpl; [reflexivity |].
  destruct (cmp x y <=? 0)%Z; [reflexivity |].
  rewrite IH. apply perm_swap.
Qed.

Lemma sort_perm {A : Type} (cmp : A -> A -> Z) (l : list A) :
  Permutation (Js.sort cmp l) l.
Proof.
  induction l as [| x l IH]; simpl; [reflexivity |].
  rewrite insert_perm. now constructor.
Qed.

(** X5.  No record is reported twice, so the output has at most four
    entries. *)
Theorem each_record_at_most_once (obs : list string) :
  NoDup (map Types.name (matchToCaseStudies obs))
  /\ List.length (matchToCaseStudies obs) <= 4.
Proof.
  unfold matchToCaseStudies. split.
  - apply (Permutation_NoDup
             (l := map Types.name (collectMatches obs))).
    + apply Permutation_map. symmetry. apply sort_perm.
    + unfold collectMatches, CANONICAL_CASES. cbn [flat_map].
      rewrite !visitCase_eq. cbn [snd].
      destruct (0 <? matchCountOf obs steel_minimills);
        destruct (0 <? matchCountOf obs disk_drives);
        destruct (0 <? matchCountOf obs honda_motorcycles);
        destruct (0 <? matchCountOf obs intel_microprocessors);
        cbn [app map referenceOf Types.name name steel_minimills disk_drives
               honda_motorcycles intel_microprocessors];
        repeat constructor; cbn [In]; intuition discriminate.
  - rewrite JsFacts.length_sort.
    unfold collectMatches, CANONICAL_CASES. cbn [flat_map].
    rewrite !visitCase_eq.
    repeat match goal with
           | |- context [if ?c then _ else _] => destruct c
           end; cbn; lia.
Qed.

(** X6.  Whatever the decision and its context, the case studies that
    [analyzeDecision] attaches are none, or the single low match of the
    disk-drive case, the latter exactly when the lower-cased input contains
    "new market" or "non-consumer": of the five signals the tool derives,
    only "Enables new use cases" shares its leading characters with a
    descriptor of the library.  The section of the response that lists
    them is accordingly one of two fixed texts. *)
Theorem analyzeDecision_case_matches (decision : string) (context : option string) :
  let inputText := AnalyzeDecision.inputTextOf decision context in
  let newMarket :=
    Js.includes inputText "new market" || Js.includes inputText "non-consumer" in
  AnalyzeDecision.caseMatchesOf decision context
  = (if newMarket
     then [ {| Types.name := "Disk Drive Generations";
               Types.pattern := "New-market disruption with different value network";
               Types.relevance :=
                 "Matches 1 signals: Enables new use cases existing solutions can't serve";
               Types.matchStrength := low |} ]
     else [])
  /\ AnalyzeDecision.caseStudiesSection (AnalyzeDecision.caseMatchesOf decision context)
     = (if newMarket
        then Js.join Js.nl
               [ EmptyString;
                 "### Disk Drive Generations";
                 "**Pattern**: New-market disruption with different value network";
                 "**Relevance**: Matches 1 signals: Enables new use cases existing solutions can't serve";
                 "**Match Strength**: low";
                 EmptyString ]
        else "No strong case study matches detected from initial signals. Deeper analysis may reveal patterns.").
Proof.
  intros inputText newMarket. unfold newMarket.
  unfold AnalyzeDecision.caseMatchesOf, AnalyzeDecision.potentialSignalsOf.
  fold inputText.
  destruct (Js.includes inputText "cheap" || Js.includes inputText "low cost"
            || Js.includes inputText "budget");
    destruct (Js.includes inputText "simple" || Js.includes inputText "easier");
    destruct (Js.includes inputText "enterprise" || Js.includes inputText "upmarket");
    destruct (Js.includes inputText "new market" || Js.includes inputText "non-consumer");
    destruct (Js.includes inputText "incumbent" || Js.includes inputText "established");
    vm_compute; split; reflexivity.
Qed.

End MatchingMore.

(* ================================================================= *)
(** ** tools/case-study.ts: matching a situation and the tool's entry *)

Module CaseStudyFlow.

Import Disruption CaseStudyTool.
Import Types(CaseStudyReference).

(** One keyword test of [matchSituationToCases]: under [cond], the case
    is pushed on [additionalMatches] unless a match bears its name. *)
Definition suggestIf (cond : bool) (matches : list CaseStudyReference)
  (displayName caseName : string) (additionalMatches : list string)
  : list string :=
  if cond then
    if existsb (fun m => String.eqb (Types.name m) displayName) matches
    then additionalMatches
    else (additionalMatches ++ [caseName])%list
  else additionalMatches.

(** [additionalMatches] after the five tests. *)
Definition additionalMatchesOf (situationLower : string)
  (matches : list CaseStudyReference) : list string :=
  let has := Js.includes situationLower in
  let a0 := [] in
  let a1 := suggestIf (has "cost" || has "cheap" || has "low-end") matches
                      "Steel Mini-Mills" "steel_minimills" a0 in
  let a2 := suggestIf (has "new market" || has "form factor" || has "portable") matches
                      "Disk Drive Generations" "disk_drives" a1 in
  let a3 := suggestIf (has "job" || has "hire" || has "circumstance") matches
                      "The Milkshake Story" "milkshake" a2 in
  let a4 := suggestIf (has "pivot" || has "unexpected" || has "surprise") matches
                      "Honda Motorcycles in America" "honda_motorcycles" a3 in
  let a5 := suggestIf (has "capability" || has "process" || has "declining") matches
                      "Intel's Pivot to Microprocessors" "intel_microprocessors" a4 in
  a5.

(** The opening of the response, up to the heading of the matches. *)
Definition responseHead (situation : string) (signals : list string) : string :=
  Js.join Js.nl
    [ EmptyString;
      "# Case Study Analysis";
      EmptyString;
      "## Your Situation";
      situation;
      EmptyString;
      "## Observed Signals";
      (if 0 <? List.length signals then bullets signals
       else "No specific signals provided.");
      EmptyString;
      "---";
      EmptyString;
      "## Matched Case Studies";
      EmptyString;
      EmptyString ].

(** [Object.keys(CANONICAL_CASES).find((k) => CANONICAL_CASES[k].name
    === name) ?? ""]. *)
Definition keyOfName (displayName : string) : string :=
  match find (fun entry => String.eqb (name (snd entry)) displayName)
             CANONICAL_CASES with
  | Some entry => fst entry
  | None => EmptyString
  end.

(** The section of one match; the lookup of the detail may throw. *)
Definition matchSection (m : CaseStudyReference) : Js.completion string :=
  match getCaseStudyDetail (keyOfName (Types.name m)) with
  | Js.Return detail =>
      Js.Return
        (Js.join Js.nl
           [ EmptyString;
             "### " ++ Types.name m;
             "**Pattern**: " ++ Types.pattern m;
             "**Relevance**: " ++ Types.relevance m;
             "**Match Strength**: " ++ AnalyzeDecision.levelName (Types.matchStrength m);
             EmptyString;
             detail;
             EmptyString ])
  | Js.Throw e => Js.Throw e
  end.

(** [xs.map(f)] where [f] may throw: the first throw ends the map. *)
Fixpoint mapThrowing {A B : Type} (f : A -> Js.completion B) (xs : list A)
  : Js.completion (list B) :=
  match xs with
  | [] => Js.Return []
  | x :: rest =>
      match f x with
      | Js.Return y =>
          match mapThrowing f rest with
          | Js.Return ys => Js.Return (y :: ys)
          | Js.Throw e => Js.Throw e
          end
      | Js.Throw e => Js.Throw e
      end
  end.

(** One line of the suggestions: [`- ${CANONICAL_CASES[c]?.name}:
    ${CANONICAL_CASES[c]?.pattern}`].  The names pushed on
    [additionalMatches] are the five literals of [additionalMatchesOf],
    none of them an inherited name; a missing key prints as the word
    undefined twice. *)
Definition suggestionLine (c : string) : string :=
  match Js.getProperty CANONICAL_CASES c with
  | Js.Own caseStudy => "- " ++ name caseStudy ++ ": " ++ pattern caseStudy
  | _ => "- undefined: undefined"
  end.

(** What is appended when nothing matched. *)
Definition noMatchPart (additionalMatches : list string) : string :=
  Js.join Js.nl
    [ EmptyString;
      "No strong matches based on the signals provided.";
      EmptyString;
      "Consider exploring these cases to find the best pattern match:";
      Js.join Js.nl (map suggestionLine additionalMatches);
      EmptyString ].

(** The closing part of the response. *)
Definition howToApply : string :=
  Js.join Js.nl
    [ EmptyString;
      "---";
      EmptyString;
      "## How to Apply This";
      EmptyString;
      "When you've identified a matching pattern, ask:";
      "1. What made the historical actors succeed or fail?";
      "2. What's similar about your situation?";
      "3. What's different that might change the outcome?";
      "4. What would Christensen's theory predict for your case?";
      EmptyString;
      "Remember: Theory predicts patterns, not specific outcomes. Use these cases";
      "to sharpen your thinking, not as rigid prescriptions.";
      EmptyString ].

Definition matchSituationToCases (situation : string) (signals : list string)
  : Js.completion string :=
  let matches := matchToCaseStudies signals in
  let situationLower := Js.toLowerCase situation in
  let additionalMatches := additionalMatchesOf situationLower matches in
  let response := responseHead situation signals in
  let body :=
    if 0 <? List.length matches then
      match mapThrowing matchSection matches with
      | Js.Return sections =>
          Js.Return (Js.join (Js.nl ++ "---" ++ Js.nl) sections)
      | Js.Throw e => Js.Throw e
      end
    else Js.Return (noMatchPart additionalMatches) in
  match body with
  | Js.Return body => Js.Return (Js.trim (response ++ body ++ howToApply))
  | Js.Throw e => Js.Throw e
  end.

(** The arguments of the tool as they arrive: each field may be absent;
    a field that is present has the type the schema names. *)
Record CaseStudyInput := {
  situation : option string;
  observedSignals : option (list string);
  caseName : option string
}.

(** How the promise of an [async] function settles. *)
Inductive rejection :=
| ZodError
| Thrown (e : Js.error).

Inductive promise (A : Type) :=
| Resolved (v : A)
| Rejected (r : rejection).
Arguments Resolved {A} v.
Arguments Rejected {A} r.

Definition settle {A : Type} (c : Js.completion A) : promise A :=
  match c with
  | Js.Return v => Resolved v
  | Js.Throw e => Rejected (Thrown e)
  end.

(** [caseStudySchema.parse]: [situation] is required, [caseName] is
    optional and one of the enumeration. *)
Definition parse (input : CaseStudyInput)
  : option (string * option (list string) * option string) :=
  match situation input with
  | None => None
  | Some s =>
      match caseName input with
      | None => Some (s, observedSignals input, None)
      | Some c =>
          if existsb (String.eqb c) caseNameEnum
          then Some (s, observedSignals input, Some c)
          else None
      end
  end.

(** A string in a condition: true unless empty. *)
Definition truthy (s : string) : bool :=
  match s with
  | EmptyString => false
  | String _ _ => true
  end.

Definition findCaseStudy (input : CaseStudyInput) : promise string :=
  match parse input with
  | None => Rejected ZodError
  | Some (s, signals, c) =>
      let viaSituation :=
        settle (matchSituationToCases s
                  (match signals with Some l => l | None => [] end)) in
      match c with
      | Some c => if truthy c then settle (getCaseStudyDetail c) else viaSituation
      | None => viaSituation
      end
  end.

End CaseStudyFlow.

(* ================================================================= *)
(** ** Properties of trimmed and joined text *)

Module TextFacts.

Import Js.

Lemma append_assoc (a b c : string) : (a ++ b) ++ c = a ++ (b ++ c).
Proof. induction a as [| x a IH]; simpl; [reflexivity | now rewrite IH]. Qed.

Lemma append_nil_r (a : string) : a ++ EmptyString = a.
Proof. induction a as [| x a IH]; simpl; [reflexivity | now rewrite IH]. Qed.

Definition isEmpty (s : string) : bool :=
  match s with
  | EmptyString => true
  | String _ _ => false
  end.

(** Trimming the end of a text in two parts: the second part when it has
    something other than white space, else the first. *)
Lemma trimEnd_app (a b : string) :
  trimEnd (a ++ b) = if isEmpty (trimEnd b) then trimEnd a else a ++ trimEnd b.
Proof.
  induction a as [| c a IH]; simpl.
  - destruct (trimEnd b); reflexivity.
  - rewrite IH. destruct (trimEnd b) as [| x t]; simpl; [reflexivity |].
    destruct (a ++ String x t) eqn:Ha; [| reflexivity].
    destruct a; discriminate.
Qed.

(** A template that opens with a line feed and a visible character, and
    closes with text that does not trim away. *)
Lemma trim_frame (c : ascii) (mid tail : string) :
  isWhiteSpace c = false ->
  isEmpty (trimEnd tail) = false ->
  trim (nl ++ String c mid ++ tail) = String c mid ++ trimEnd tail.
Proof.
  intros Hc Ht. unfold trim.
  change (trimStart (nl ++ String c mid ++ tail))
    with (if isWhiteSpace c then trimStart (mid ++ tail) else String c mid ++ tail).
  rewrite Hc, trimEnd_app, Ht. reflexivity.
Qed.

Lemma occursIn_refl (x : string) : occursIn x x.
Proof. exists EmptyString, EmptyString. simpl. now rewrite append_nil_r. Qed.

Lemma occursIn_app_r (x a b : string) : occursIn x b -> occursIn x (a ++ b).
Proof.
  intros (pre & post & ->). exists (a ++ pre), post. now rewrite append_assoc.
Qed.

Lemma occursIn_app_l (x a b : string) : occursIn x a -> occursIn x (a ++ b).
Proof.
  intros (pre & post & ->). exists pre, (post ++ b).
  now rewrite !append_assoc.
Qed.

Lemma occursIn_join (sep x : string) (xs : list string) :
  In x xs -> occursIn x (join sep xs).
Proof.
  induction xs as [| y xs IH]; [intros [] |].
  intros [-> | Hin].
  - destruct xs; simpl; [apply occursIn_refl |].
    apply occursIn_app_l, occursIn_refl.
  - destruct xs as [| z xs]; [destruct Hin |].
    change (join sep (y :: z :: xs)) with (y ++ sep ++ join sep (z :: xs)).
    now apply occursIn_app_r, occursIn_app_r, IH.
Qed.

Lemma substring_occurs (b n : nat) (s : string) : occursIn (substring b n s) s.
Proof.
  revert n s; induction b as [| b IH]; intros n s.
  - revert s; induction n as [| n IHn]; intros s.
    + exists EmptyString, s. destruct s; reflexivity.
    + destruct s as [| c s]; [apply occursIn_refl |].
      destruct (IHn s) as (pre & post & H).
      simpl. destruct pre as [| p pre].
      * exists EmptyString, post. simpl in *. now rewrite <- H.
      * (* the run starts at the head of [s] *)
        clear H. exists EmptyString.
        assert (Hp : exists post', s = substring 0 n s ++ post').
        { clear. revert s; induction n as [| n IHn]; intros s.
          - exists s. destruct s; reflexivity.
          - destruct s as [| c s]; [exists EmptyString; reflexivity |].
            destruct (IHn s) as (post' & H). exists post'. simpl. now rewrite <- H. }
        destruct Hp as (post' & Hp). exists post'. simpl. now rewrite <- Hp.
  - destruct s as [| c s]; simpl.
    + apply occursIn_refl.
    + destruct (IH n s) as (pre & post & H).
      exists (String c pre), post. simpl. now rewrite <- H.
Qed.

End TextFacts.

(* ================================================================= *)
(** ** Properties of the case-study tool *)

Module CaseStudyFlowFacts.

Import Disruption CaseStudyTool CaseStudyFlow.
Import Types(CaseStudyReference).

(** The schema accepts the input. *)
Definition accepted (input : CaseStudyInput) : bool :=
  match situation input, caseName input with
  | Some _, None => true
  | Some _, Some c => existsb (String.eqb c) caseNameEnum
  | None, _ => false
  end.

Lemma mapThrowing_returns {A B : Type} (f : A -> Js.completion B) (xs : list A) :
  (forall x, In x xs -> exists y, f x = Js.Return y) ->
  exists ys, mapThrowing f xs = Js.Return ys.
Proof.
  induction xs as [| x xs IH]; intros H; simpl; [eauto |].
  destruct (H x (or_introl eq_refl)) as (y & ->).
  destruct IH as (ys & ->); [intros; apply H; simpl; auto |]. eauto.
Qed.

(** A record of the library is found again by its name, and its key has a
    description. *)
Lemma library_record_resolves (key : string) (cs : CaseStudyPattern) :
  In (key, cs) CANONICAL_CASES ->
  exists ext, In (key, ext) CASE_STUDY_EXTENSIONS
              /\ keyOfName (name cs) = key
              /\ getCaseStudyDetail key = Js.Return (Js.trim (detailTemplate cs ext)).
Proof.
  unfold CANONICAL_CASES. cbn [In]. intros H.
  repeat (destruct H as [H | H]); try contradiction; inversion H; subst.
  - exists ext_steel_minimills. split; [simpl; tauto |]. split; vm_compute; reflexivity.
  - exists ext_disk_drives. split; [simpl; tauto |]. split; vm_compute; reflexivity.
  - exists ext_honda_motorcycles. split; [simpl; tauto |]. split; vm_compute; reflexivity.
  - exists ext_intel_microprocessors. split; [simpl; tauto |]. split; vm_compute; reflexivity.
Qed.

Lemma match_resolves (signals : list string) (m : CaseStudyReference) :
  In m (matchToCaseStudies signals) ->
  exists key cs ext,
    In (key, cs) CANONICAL_CASES
    /\ In (key, ext) CASE_STUDY_EXTENSIONS
    /\ Types.name m = name cs
    /\ keyOfName (Types.name m) = key
    /\ getCaseStudyDetail key = Js.Return (Js.trim (detailTemplate cs ext)).
Proof.
  intros Hm. apply DisruptionFacts.In_output in Hm.
  destruct Hm as ([key cs] & Hin & _ & ->). cbn [snd].
  destruct (library_record_resolves key cs Hin) as (ext & He & Hk & Hd).
  exists key, cs, ext. cbn [DisruptionFacts.referenceOf Types.name]. auto.
Qed.

Lemma matchSituationToCases_returns (s : string) (signals : list string) :
  exists text, matchSituationToCases s signals = Js.Return text.
Proof.
  unfold matchSituationToCases.
  destruct (0 <? List.length (matchToCaseStudies signals)); [| eauto].
  destruct (mapThrowing_returns matchSection (matchToCaseStudies signals))
    as (sections & ->); [| eauto].
  intros m Hm. destruct (match_resolves signals m Hm) as (key & cs & ext & _ & _ & _ & Hk & Hd).
  unfold matchSection. rewrite Hk, Hd. eauto.
Qed.

(** X7.  [matchSituationToCases] returns for every situation and list of
    signals; the key it looks up for a reported match is the key of the
    record of that name, and the detail it embeds is that record's
    description, never the not-found message. *)
Theorem situation_matches_resolve (s : string) (signals : list string) :
  (exists text, matchSituationToCases s signals = Js.Return text)
  /\ forall m, In m (matchToCaseStudies signals) ->
       exists key cs ext,
         In (key, cs) CANONICAL_CASES
         /\ In (key, ext) CASE_STUDY_EXTENSIONS
         /\ Types.name m = name cs
         /\ keyOfName (Types.name m) = key
         /\ getCaseStudyDetail key = Js.Return (Js.trim (detailTemplate cs ext)).
Proof.
  split; [apply matchSituationToCases_returns | apply match_resolves].
Qed.

Lemma situation_matches_resolve_witness :
  let signals := ["Adjacent opportunity emerging"] in
  exists key cs ext,
    In (key, cs) CANONICAL_CASES
    /\ In (key, ext) CASE_STUDY_EXTENSIONS
    /\ name cs = "Intel's Pivot to Microprocessors"
    /\ key = "intel_microprocessors"
    /\ getCaseStudyDetail key = Js.Return (Js.trim (detailTemplate cs ext)).
Proof.
  intros signals.
  destruct (proj2 (situation_matches_resolve "a declining business" signals)
              (DisruptionFacts.referenceOf signals intel_microprocessors))
    as (key & cs & ext & H1 & H2 & H3 & H4 & H5).
  - vm_compute. auto.
  - exists key, cs, ext.
    split; [exact H1 |]. split; [exact H2 |]. split; [symmetry; exact H3 |].
    split; [rewrite <- H4; vm_compute; reflexivity | exact H5].
Defined.

Lemma occursIn_trans (x y z : string) :
  Js.occursIn x y -> Js.occursIn y z -> Js.occursIn x z.
Proof.
  intros (p1 & q1 & ->) (p2 & q2 & ->).
  exists (p2 ++ p1), (q1 ++ q2). now rewrite !TextFacts.append_assoc.
Qed.

Lemma In_suggestIf_keep (cond : bool) (ms : list CaseStudyReference)
  (d c x : string) (xs : list string) :
  In x xs -> In x (suggestIf cond ms d c xs).
Proof.
  unfold suggestIf. destruct cond; [| auto].
  destruct (existsb _ ms); [auto |]. intros H. apply in_or_app. auto.
Qed.

(** X8.  When no signal matches and the situation mentions a job, a hire
    or a circumstance, the response suggests the milkshake case, which the
    table of cases lacks: the suggestion reads "- undefined: undefined". *)
Theorem milkshake_suggestion_is_undefined (s : string) (signals : list string) :
  matchToCaseStudies signals = [] ->
  (let has := Js.includes (Js.toLowerCase s) in
   has "job" || has "hire" || has "circumstance") = true ->
  exists text, matchSituationToCases s signals = Js.Return text
               /\ Js.occursIn "- undefined: undefined" text.
Proof.
  intros Hnone Hkey. unfold matchSituationToCases. rewrite Hnone.
  cbn [List.length Nat.ltb Nat.leb].
  eexists. split; [reflexivity |].
  set (additional := additionalMatchesOf (Js.toLowerCase s) []).
  assert (Hin : In "milkshake" additional).
  { unfold additional, additionalMatchesOf.
    do 2 apply In_suggestIf_keep.
    unfold suggestIf at 1. cbv zeta in Hkey. rewrite Hkey. cbn [existsb].
    apply in_or_app. right. simpl. auto. }
  assert (Hline : Js.occursIn "- undefined: undefined" (noMatchPart additional)).
  { unfold noMatchPart.
    apply (occursIn_trans _ (Js.join Js.nl (map suggestionLine additional))).
    - apply TextFacts.occursIn_join.
      change "- undefined: undefined" with (suggestionLine "milkshake").
      now apply in_map.
    - apply TextFacts.occursIn_join. simpl. tauto. }
  assert (Hhead : exists mid, responseHead s signals
                              = Js.nl ++ String "#" mid).
  { eexists. unfold responseHead. cbn [Js.join]. reflexivity. }
  destruct Hhead as (mid & ->).
  replace ((Js.nl ++ String "#" mid) ++ noMatchPart additional ++ howToApply)
    with (Js.nl ++ String "#" (mid ++ noMatchPart additional) ++ howToApply)
    by (simpl; now rewrite TextFacts.append_assoc).
  rewrite TextFacts.trim_frame by (vm_compute; reflexivity).
  apply TextFacts.occursIn_app_l.
  change (String "#" (mid ++ noMatchPart additional))
    with (String "#" mid ++ noMatchPart additional).
  now apply TextFacts.occursIn_app_r.
Qed.

Lemma milkshake_suggestion_is_undefined_witness :
  exists text,
    matchSituationToCases "Which job do customers hire us for" [] = Js.Return text
    /\ Js.occursIn "- undefined: undefined" text.
Proof.
  apply milkshake_suggestion_is_undefined; vm_compute; reflexivity.
Defined.

(** X9.  [findCaseStudy] resolves with a text for every input the schema
    accepts (a situation, and no case name or one of the five) and rejects
    every other input with the schema's error; a request with a case name
    and no situation is among the latter, and the TypeError of the lookup
    never surfaces. *)
Theorem findCaseStudy_settles (input : CaseStudyInput) :
  (if accepted input
   then exists text, findCaseStudy input = Resolved text
   else findCaseStudy input = Rejected ZodError)
  /\ (forall e, findCaseStudy input <> Rejected (Thrown e))
  /\ (situation input = None -> findCaseStudy input = Rejected ZodError).
Proof.
  assert (H : if accepted input
              then exists text, findCaseStudy input = Resolved text
              else findCaseStudy input = Rejected ZodError).
  { unfold accepted, findCaseStudy, parse.
    destruct (situation input) as [s |]; [| reflexivity].
    destruct (caseName input) as [c |].
    - destruct (existsb (String.eqb c) caseNameEnum) eqn:Hc; [| reflexivity].
      unfold caseNameEnum in Hc. cbn [existsb] in Hc.
      repeat (apply orb_true_iff in Hc; destruct Hc as [Hc | Hc]);
        try discriminate; apply String.eqb_eq in Hc; subst c;
        cbn [truthy]; eexists; vm_compute; reflexivity.
    - destruct (matchSituationToCases_returns s
                  (match observedSignals input with Some l => l | None => [] end))
        as (text & Ht).
      cbv zeta. rewrite Ht. exists text. reflexivity. }
  split; [exact H |]. split.
  - intros e He. destruct (accepted input).
    + destruct H as (text & H). congruence.
    + congruence.
  - intros Hs. unfold findCaseStudy, parse. now rewrite Hs.
Qed.

Lemma findCaseStudy_settles_witness :
  findCaseStudy {| situation := None; observedSignals := None;
                   caseName := Some "disk_drives" |}
  = Rejected ZodError.
Proof.
  apply (proj2 (proj2 (findCaseStudy_settles
                         {| situation := None; observedSignals := None;
                            caseName := Some "disk_drives" |}))).
  reflexivity.
Defined.

End CaseStudyFlowFacts.

(* ================================================================= *)
(** ** validation/fidelity-check.ts: the report *)

Module Report.

Import Fidelity.

(** The marks of the report are characters outside the modelled range of
    code units; they are kept as the bytes of the source file and only
    copied into the report. *)
Definition tick : string := "✓".
Definition cross : string := "✗".
Definition warning : string := "⚠️".

(** An integer in a template literal. *)
Definition ofZ (z : Z) : string := NilEmpty.string_of_int (Z.to_int z).

(** [s || "-"]. *)
Definition orDash (s : string) : string :=
  match s with
  | EmptyString => "-"
  | String _ _ => s
  end.

(** The rows of the table of required markers: label, flag and the
    excerpts shown, [matches.slice(0, 2)]. *)
Definition mustRows (score : FidelityScore) : list (string * bool * list string) :=
  let b := breakdown score in
  [ ("Framework Reference", found (frameworkReference b),
     firstn 2 (matches (frameworkReference b)));
    ("JTBD Question", found (jtbdQuestion b), firstn 2 (matches (jtbdQuestion b)));
    ("Humility", found (humility b), firstn 2 (matches (humility b)));
    ("Case Study", found (caseStudy b), firstn 2 (matches (caseStudy b)));
    ("Constraints", found (constraints b), firstn 2 (matches (constraints b))) ].

(** The rows of the table of recommended markers, each with the condition
    the template tests. *)
Definition shouldRows (score : FidelityScore) : list (string * bool) :=
  let b := breakdown score in
  [ ("Story/Example", found (story b));
    ("Multiple Frameworks", 1 <? List.length (matches (frameworkReference b)));
    ("Multiple Humility Markers", 1 <? List.length (matches (humility b)));
    ("Combined Analysis", found (jtbdQuestion b) && found (constraints b)) ].

(** The rows of the table of anti-patterns, with all their excerpts. *)
Definition antiRows (score : FidelityScore) : list (string * bool * list string) :=
  let a := antiPatterns score in
  [ ("Overconfidence", found (overconfidence a), matches (overconfidence a));
    ("Dismissive", found (dismissive a), matches (dismissive a));
    ("Generic Advice", found (generic a), matches (generic a)) ].

Definition markerRow (yes no : string) (row : string * bool * list string) : string :=
  let '(label, flag, examples) := row in
  "| " ++ label ++ " | " ++ (if flag then yes else no) ++ " | "
  ++ orDash (Js.join ", " examples) ++ " |".

Definition checkRow (row : string * bool) : string :=
  "| " ++ fst row ++ " | " ++ (if snd row then tick else cross) ++ " |".

Definition formatFidelityReport (score : FidelityScore) : string :=
  let status := if passed score then tick ++ " PASSED" else cross ++ " FAILED" in
  Js.trim
    (Js.join Js.nl
       (List.concat
          [ [ EmptyString;
              "# Fidelity Check: " ++ status;
              EmptyString;
              "**Overall Score**: " ++ ofZ (overall score) ++ "/100";
              EmptyString;
              "## Must Include (" ++ Js.ofNat (mustIncludeScore score) ++ "/5)";
              EmptyString;
              "| Marker | Found | Examples |";
              "|--------|-------|----------|" ];
            map (markerRow tick cross) (mustRows score);
            [ EmptyString;
              "## Should Include (" ++ Js.ofNat (shouldIncludeScore score) ++ "/4)";
              EmptyString;
              "| Marker | Found |";
              "|--------|-------|" ];
            map checkRow (shouldRows score);
            [ EmptyString;
              "## Anti-Patterns (" ++ ofZ (antiPatternPenalty score) ++ " point penalty)";
              EmptyString;
              "| Pattern | Found | Examples |";
              "|---------|-------|----------|" ];
            map (markerRow warning tick) (antiRows score);
            [ EmptyString ] ])).

End Report.

(* ================================================================= *)
(** ** frameworks/jobs-to-be-done.ts and frameworks/capabilities.ts:
       the assessments *)

Module Frameworks.

Import Types(ConfidenceLevel, high, medium, low, uncertain).

Inductive Importance := critical | important | contextual.

Record DiagnosticQuestion := {
  question : string;
  answer : option string;
  importance : Importance
}.

Record JobDimensions := {
  functional : string;
  emotional : string;
  social : string
}.

Record Circumstance := {
  c_situation : string;
  trigger : string;
  c_constraints : list string
}.

Record JTBDAnalysis := {
  job : string;
  dimensions : JobDimensions;
  circumstance : Circumstance;
  firingFrom : list string;
  firingRisks : list string;
  underservedSegments : list string;
  openQuestions : list DiagnosticQuestion;
  j_confidence : ConfidenceLevel
}.

Definition createEmptyJTBDAnalysis : JTBDAnalysis :=
  {| job := EmptyString;
     dimensions := {| functional := EmptyString; emotional := EmptyString;
                      social := EmptyString |};
     circumstance := {| c_situation := EmptyString; trigger := EmptyString;
                        c_constraints := [] |};
     firingFrom := [];
     firingRisks := [];
     underservedSegments := [];
     openQuestions := [];
     j_confidence := uncertain |}.

(** [if (cond) score += n]. *)
Definition addIf (cond : bool) (n score : nat) : nat :=
  if cond then score + n else score.

Definition assessJTBDConfidence (analysis : JTBDAnalysis) : ConfidenceLevel :=
  let score := 0 in
  let score := addIf (20 <? length (job analysis)) 2 score in
  let score := addIf (CaseStudyFlow.truthy (functional (dimensions analysis))) 1 score in
  let score := addIf (CaseStudyFlow.truthy (emotional (dimensions analysis))) 1 score in
  let score := addIf (CaseStudyFlow.truthy (social (dimensions analysis))) 1 score in
  let score := addIf (CaseStudyFlow.truthy (c_situation (circumstance analysis))) 1 score in
  let score := addIf (CaseStudyFlow.truthy (trigger (circumstance analysis))) 1 score in
  let score := addIf (0 <? List.length (firingFrom analysis)) 1 score in
  let score := addIf (0 <? List.length (firingRisks analysis)) 1 score in
  let score := addIf (0 <? List.length (underservedSegments analysis)) 1 score in
  if 9 <=? score then high
  else if 6 <=? score then medium
  else if 3 <=? score then low
  else uncertain.

Inductive Degree := deg_high | deg_medium | deg_low.
Inductive Alignment := aligned | neutral | misaligned.
Inductive Blocker :=
| blocker_resources | blocker_processes | blocker_priorities | blocker_none.

Record ResourceAssessment := {
  available : list string;
  missing : list string;
  acquirable : list string;
  flexibility : Degree
}.

Record ProcessAssessment := {
  supporting : list string;
  hindering : list string;
  rigidity : Degree;
  requiredChanges : list string
}.

Record PrioritiesAssessment := {
  currentPriorities : list string;
  alignment : Alignment;
  alignmentRationale : string;
  requiredShifts : list string
}.

Record OverallAssessment := {
  canExecute : bool;
  primaryBlocker : Blocker;
  explanation : string
}.

Record CPPAnalysis := {
  resources : ResourceAssessment;
  processes : ProcessAssessment;
  priorities : PrioritiesAssessment;
  overallAssessment : OverallAssessment;
  recommendations : list string;
  confidence : ConfidenceLevel
}.

Definition createEmptyCPPAnalysis : CPPAnalysis :=
  {| resources := {| available := []; missing := []; acquirable := [];
                     flexibility := deg_medium |};
     processes := {| supporting := []; hindering := []; rigidity := deg_medium;
                     requiredChanges := [] |};
     priorities := {| currentPriorities := []; alignment := neutral;
                      alignmentRationale := EmptyString; requiredShifts := [] |};
     overallAssessment := {| canExecute := false; primaryBlocker := blocker_none;
                             explanation := EmptyString |};
     recommendations := [];
     confidence := uncertain |}.

Definition isHigh (d : Degree) : bool :=
  match d with deg_high => true | _ => false end.
Definition isLow (d : Degree) : bool :=
  match d with deg_low => true | _ => false end.
Definition isMisaligned (a : Alignment) : bool :=
  match a with misaligned => true | _ => false end.

Definition identifyPrimaryBlocker (analysis : CPPAnalysis) : Blocker :=
  if isMisaligned (alignment (priorities analysis)) then blocker_priorities
  else if isHigh (rigidity (processes analysis))
          && (List.length (supporting (processes analysis))
              <? List.length (hindering (processes analysis)))
  then blocker_processes
  else if (0 <? List.length (missing (resources analysis)))
          && isLow (flexibility (resources analysis))
  then blocker_resources
  else if 0 <? List.length (hindering (processes analysis)) then blocker_processes
  else blocker_none.

End Frameworks.

(* ================================================================= *)
(** ** Further properties of the fidelity score and its report *)

Module FidelityMore.

Import Fidelity Spec FidelityFacts.

(** All the excerpts of a score. *)
Definition allExcerpts (s : FidelityScore) : list string :=
  List.concat
    [ matches (frameworkReference (breakdown s)); matches (jtbdQuestion (breakdown s));
      matches (humility (breakdown s)); matches (caseStudy (breakdown s));
      matches (constraints (breakdown s)); matches (story (breakdown s));
      matches (overconfidence (antiPatterns s)); matches (dismissive (antiPatterns s));
      matches (generic (antiPatterns s)) ].

(** The overconfidence rule [/\b100%\b/]. *)
Definition rule100 : RegExp.t :=
  nth 5 (n_overconfidence NEGATIVE_PATTERNS) (ri []).

Lemma penaltyOf_bounds (a b c : bool) : (0 <= penaltyOf a b c <= 30)%Z.
Proof. destruct a, b, c; unfold penaltyOf; lia. Qed.

(** The arithmetic of a score, apart from the text it comes from. *)
Section Arithmetic.

Variables (m sh : nat) (p o : Z) (ps : bool).
Variables (fw jt hu cs co st : Marker) (x y z : bool).

Hypothesis Hm :
  m = howMany [triggered fw; triggered jt; triggered hu; triggered cs; triggered co].
Hypothesis Hs :
  sh = howMany [ triggered st; 2 <=? List.length (matches fw);
                 2 <=? List.length (matches hu); triggered jt && triggered co ].
Hypothesis Hp : p = penaltyOf x y z.
Hypothesis Ho : o = clamp (Z.of_nat m * 10 + Z.of_nat sh * 10 - p) 0 100.
Hypothesis Hq : ps = (4 <=? m) && negb y && negb x.

Lemma counts_bounded : m <= 5 /\ sh <= 4 /\ (0 <= p <= 30)%Z.
Proof.
  pose proof (howMany_le [triggered fw; triggered jt; triggered hu; triggered cs;
                          triggered co]) as H5.
  pose proof (howMany_le [ triggered st; 2 <=? List.length (matches fw);
                           2 <=? List.length (matches hu);
                           triggered jt && triggered co ]) as H4.
  pose proof (penaltyOf_bounds x y z) as H30.
  rewrite <- Hm in H5. rewrite <- Hs in H4. rewrite <- Hp in H30.
  cbn [List.length] in H5, H4. auto.
Qed.

Lemma overall_abstract :
  o = Z.max 0 (Z.of_nat m * 10 + Z.of_nat sh * 10 - p)%Z /\ (o <= 90)%Z.
Proof.
  destruct counts_bounded as (H5 & H4 & H30).
  rewrite Ho. unfold clamp.
  repeat match goal with
         | |- context [(?a <? ?b)%Z] => destruct (Z.ltb_spec a b)
         end; lia.
Qed.

Lemma should_le_must : sh <= m + 1.
Proof.
  rewrite Hm, Hs. unfold triggered.
  destruct (matches fw) as [| ? [| ? ?]]; destruct (matches hu) as [| ? [| ? ?]];
    destruct (matches jt); destruct (matches co); destruct (matches cs);
    destruct (matches st); simpl; lia.
Qed.

Lemma passing_abstract :
  (ps = true -> (35 <= o)%Z) /\ ((80 < o)%Z -> ps = true).
Proof.
  destruct counts_bounded as (H5 & H4 & H30).
  rewrite Ho, Hq, Hp. unfold clamp, penaltyOf.
  destruct x, y, z; destruct (Nat.leb_spec 4 m) as [Hle | Hlt]; cbn [negb andb];
    (split; intros Hps; try discriminate; try reflexivity);
    repeat match goal with
           | |- context [(?a <? ?b)%Z] => destruct (Z.ltb_spec a b)
           | Hc : context [(?a <? ?b)%Z] |- _ => destruct (Z.ltb_spec a b)
           end; lia.
Qed.

End Arithmetic.

(** X10.  No text scores above 90: at most five required categories and
    four recommended checks count ten points each, the penalty lies
    between 0 and 30, and the overall score is the raw score less the
    penalty, or 0 when that is negative; the upper bound of the clamp is
    never reached. *)
Theorem overall_at_most_90 (t : string) :
  let s := calculateFidelityScore t in
  mustIncludeScore s <= 5
  /\ shouldIncludeScore s <= 4
  /\ (0 <= antiPatternPenalty s <= 30)%Z
  /\ overall s
     = Z.max 0 (Z.of_nat (mustIncludeScore s) * 10
                + Z.of_nat (shouldIncludeScore s) * 10 - antiPatternPenalty s)%Z
  /\ (overall s <= 90)%Z.
Proof.
  intros s.
  destruct (counts_bounded _ _ _ _ _ _ _ _ _ _ _ _
              (mustIncludeScore_eq t) (shouldIncludeScore_eq t)
              (antiPatternPenalty_eq t)) as (H5 & H4 & H30).
  destruct (overall_abstract _ _ _ _ _ _ _ _ _ _ _ _ _
              (mustIncludeScore_eq t) (shouldIncludeScore_eq t)
              (antiPatternPenalty_eq t) (overall_eq t)) as (Ho & H90).
  exact (conj H5 (conj H4 (conj H30 (conj Ho H90)))).
Qed.

(** X11.  The recommended checks exceed the required categories by one at
    most: each check but the story presupposes required categories. *)
Theorem recommended_presuppose_required (t : string) :
  let s := calculateFidelityScore t in
  shouldIncludeScore s <= mustIncludeScore s + 1.
Proof.
  intros s.
  exact (should_le_must _ _ _ _ _ _ _ _
           (mustIncludeScore_eq t) (shouldIncludeScore_eq t)).
Qed.

(** X12.  A text that passes scores at least 35, and a text that scores
    above 80 passes. *)
Theorem passing_and_score (t : string) :
  let s := calculateFidelityScore t in
  (passed s = true -> (35 <= overall s)%Z)
  /\ ((80 < overall s)%Z -> passed s = true).
Proof.
  intros s.
  exact (passing_abstract _ _ _ _ _ _ _ _ _ _ _ _ _ _
           (mustIncludeScore_eq t) (shouldIncludeScore_eq t)
           (antiPatternPenalty_eq t) (overall_eq t) (passed_eq t)).
Qed.

Lemma passing_and_score_witness :
  let text :=
    "The theory would predict disruption: what job does steel do? Best practices say so." in
  passed (calculateFidelityScore text) = true
  /\ (35 <= overall (calculateFidelityScore text))%Z
  /\ overall (calculateFidelityScore text) = 35%Z.
Proof.
  intros text.
  assert (Hp : passed (calculateFidelityScore text) = true)
    by (vm_compute; reflexivity).
  split; [exact Hp |].
  split; [exact (proj1 (passing_and_score text) Hp) | vm_compute; reflexivity].
Defined.

Lemma findMatches_from_rule (text : string) (rules : list RegExp.t)
  (category : option string) (m : string) :
  In m (findMatches text rules category) ->
  exists r, In r rules /\ RegExp.match0 text r = Some m.
Proof.
  induction rules as [| r rules IH]; simpl; [tauto |].
  destruct (RegExp.match0 text r) as [m0 |] eqn:Hm.
  - destruct (skipped text category m0).
    + intros H. destruct (IH H) as (r' & Hin & Hr'). eauto.
    + intros [<- | H]; [eauto |].
      destruct (IH H) as (r' & Hin & Hr'). eauto.
  - intros H. destruct (IH H) as (r' & Hin & Hr'). eauto.
Qed.

Lemma findMatches_length (text : string) (rules : list RegExp.t)
  (category : option string) :
  List.length (findMatches text rules category) <= List.length rules.
Proof.
  induction rules as [| r rules IH]; simpl; [lia |].
  destruct (RegExp.match0 text r) as [m0 |]; [| lia].
  destruct (skipped text category m0); simpl; lia.
Qed.

Lemma match0_occurs (text : string) (r : RegExp.t) (m : string) :
  RegExp.match0 text r = Some m -> Js.occursIn m text.
Proof.
  unfold RegExp.match0. destruct (RegExp.exec r text) as [[b e] |]; [| discriminate].
  intros H. inversion H; subst. apply TextFacts.substring_occurs.
Qed.

Lemma category_matches (t : string) :
  let s := calculateFidelityScore t in
  [ matches (frameworkReference (breakdown s)); matches (jtbdQuestion (breakdown s));
    matches (humility (breakdown s)); matches (caseStudy (breakdown s));
    matches (constraints (breakdown s)); matches (story (breakdown s));
    matches (overconfidence (antiPatterns s)); matches (dismissive (antiPatterns s));
    matches (generic (antiPatterns s)) ]
  = [ findMatches t (p_frameworkReference POSITIVE_PATTERNS) None;
      findMatches t (p_jtbdQuestion POSITIVE_PATTERNS) None;
      findMatches t (p_humility POSITIVE_PATTERNS) None;
      findMatches t (p_caseStudy POSITIVE_PATTERNS) None;
      findMatches t (p_constraints POSITIVE_PATTERNS) None;
      findMatches t (p_story POSITIVE_PATTERNS) None;
      findMatches t (n_overconfidence NEGATIVE_PATTERNS) (Some "overconfidence");
      findMatches t (n_dismissive NEGATIVE_PATTERNS) (Some "dismissive");
      findMatches t (n_generic NEGATIVE_PATTERNS) None ].
Proof. reflexivity. Qed.

(** X13.  Every excerpt a score reports, in any of the nine categories,
    is a stretch of the text, and a category reports at most one excerpt
    per rule however often its phrases occur: at most 8, 5, 7, 7, 5 and 5
    for the required and story categories, 6, 5 and 4 for the forbidden
    ones. *)
Theorem excerpts_come_from_the_text (t : string) :
  let s := calculateFidelityScore t in
  (forall m, In m (allExcerpts s) -> Js.occursIn m t)
  /\ Forall2 (fun ms bound => List.length ms <= bound)
       [ matches (frameworkReference (breakdown s)); matches (jtbdQuestion (breakdown s));
         matches (humility (breakdown s)); matches (caseStudy (breakdown s));
         matches (constraints (breakdown s)); matches (story (breakdown s));
         matches (overconfidence (antiPatterns s)); matches (dismissive (antiPatterns s));
         matches (generic (antiPatterns s)) ]
       [8; 5; 7; 7; 5; 5; 6; 5; 4].
Proof.
  intros s. unfold allExcerpts.
  assert (H := category_matches t). fold s in H. cbv zeta in H. rewrite H.
  split.
  - intros m Hm. apply in_concat in Hm. destruct Hm as (l & Hl & Hm).
    cbn [In] in Hl.
    repeat (destruct Hl as [<- | Hl];
            [apply findMatches_from_rule in Hm;
             destruct Hm as (r & _ & Hr); exact (match0_occurs _ _ _ Hr) |]).
    destruct Hl.
  - repeat (constructor; [exact (findMatches_length t _ _) |]). constructor.
Qed.

Lemma excerpts_come_from_the_text_witness :
  Js.occursIn "Steel" "Consider how Steel mills fared".
Proof.
  apply (proj1 (excerpts_come_from_the_text "Consider how Steel mills fared")).
  vm_compute. tauto.
Defined.

Lemma execFrom_matches (ic : bool) (text : string) (r : RegExp.regex)
  (fuel i b e : nat) :
  RegExp.execFrom ic text r fuel i = Some (b, e) ->
  RegExp.rmatch ic text r b Some = Some e.
Proof.
  revert i; induction fuel as [| fuel IH]; intros i H; cbn [RegExp.execFrom] in H;
    destruct (RegExp.rmatch ic text r i Some) as [x |] eqn:Hm;
    try discriminate; try (inversion H; subst; exact Hm).
  eapply IH; eauto.
Qed.

Lemma get_before (i : nat) (s : string) (c : ascii) :
  get (S i) s = Some c -> exists p, get i s = Some p.
Proof.
  revert i; induction s as [| x s IH]; intros i H; simpl in H; [discriminate |].
  destruct i as [| i]; [exists x; reflexivity |].
  simpl. eapply IH; eauto.
Qed.

Lemma get_literal_char (ic : bool) (text : string) (a c : ascii) (i : nat) :
  get i text = Some c -> RegExp.sameChar ic c a = true -> ic = false -> c = a.
Proof.
  intros _ H ->. unfold RegExp.sameChar, RegExp.canonicalize in H.
  now apply Ascii.eqb_eq in H.
Qed.

(** X14.  The overconfidence rule for "100%" matches only where those
    four characters are followed by a letter, a digit or an underscore
    (and are not preceded by one): "100%" before a blank, a full stop or
    the end of the text is not reported. *)
Theorem hundred_percent_needs_a_word_after (text : string) (b e : nat) :
  RegExp.exec rule100 text = Some (b, e) ->
  e = b + 4
  /\ Js.slice text b e = "100%"
  /\ (exists c, get e text = Some c /\ RegExp.isWordChar c = true)
  /\ (b = 0 \/ exists p, get (b - 1) text = Some p /\ RegExp.isWordChar p = false).
Proof.
  unfold RegExp.exec. intros Hx. apply execFrom_matches in Hx.
  change (RegExp.source rule100)
    with (RegExp.Seq RegExp.WordBoundary
            (RegExp.Seq (RegExp.Lit "100%")
               (RegExp.Seq RegExp.WordBoundary RegExp.Empty))) in Hx.
  change (RegExp.ignoreCase rule100) with false in Hx.
  cbn [RegExp.rmatch] in Hx.
  destruct (RegExp.atWordBoundary text b) eqn:Hstart; [| discriminate].
  destruct (RegExp.litMatch false text "100%" b) as [j |] eqn:Hlit; [| discriminate].
  destruct (RegExp.atWordBoundary text j) eqn:Hend; [| discriminate].
  inversion Hx; subst j; clear Hx.
  pose proof (RegExpFacts.litMatch_spec _ _ _ _ _ Hlit) as [He Hsame]. subst e.
  cbn [RegExp.litMatch] in Hlit.
  destruct (get b text) as [c0 |] eqn:G0; [| discriminate].
  destruct (RegExp.sameChar false c0 "1") eqn:S0; [| discriminate].
  destruct (get (S b) text) as [c1 |] eqn:G1; [| discriminate].
  destruct (RegExp.sameChar false c1 "0") eqn:S1; [| discriminate].
  destruct (get (S (S b)) text) as [c2 |] eqn:G2; [| discriminate].
  destruct (RegExp.sameChar false c2 "0") eqn:S2; [| discriminate].
  destruct (get (S (S (S b))) text) as [c3 |] eqn:G3; [| discriminate].
  destruct (RegExp.sameChar false c3 "%") eqn:S3; [| discriminate].
  apply (get_literal_char false text _ _ _ G0) in S0; [| reflexivity].
  apply (get_literal_char false text _ _ _ G3) in S3; [| reflexivity].
  subst c0 c3.
  split; [reflexivity |]. split; [| split].
  - unfold Js.slice. replace (b + length "100%" - b) with 4 by (simpl; lia).
    rewrite (RegExpFacts.substring_get _ _ _ _ G0),
      (RegExpFacts.substring_get _ _ _ _ G1),
      (RegExpFacts.substring_get _ _ _ _ G2),
      (RegExpFacts.substring_get _ _ _ _ G3),
      RegExpFacts.substring_0_length.
    unfold RegExp.sameChar, RegExp.canonicalize in S1, S2.
    apply Ascii.eqb_eq in S1, S2. now subst.
  - unfold RegExp.atWordBoundary in Hend.
    replace (b + length "100%") with (S (S (S (S b)))) in * by (simpl; lia).
    unfold RegExp.wordAt at 1 in Hend. rewrite G3 in Hend.
    change (RegExp.isWordChar "%") with false in Hend. cbn [xorb] in Hend.
    unfold RegExp.wordAt in Hend.
    destruct (get (S (S (S (S b)))) text) as [c |]; [| discriminate].
    exists c. auto.
  - unfold RegExp.atWordBoundary in Hstart.
    unfold RegExp.wordAt at 2 in Hstart. rewrite G0 in Hstart.
    change (RegExp.isWordChar "1") with true in Hstart.
    destruct b as [| b']; [left; reflexivity | right].
    unfold RegExp.wordAt in Hstart.
    replace (S b' - 1) with b' by lia.
    destruct (get_before _ _ _ G0) as (p & Gp). rewrite Gp in Hstart.
    exists p. split; [exact Gp |].
    destruct (RegExp.isWordChar p); [discriminate | reflexivity].
Qed.

Lemma hundred_percent_needs_a_word_after_witness :
  RegExp.exec rule100 "up 100% sure, 100%x" = Some (14, 18)
  /\ exists c, get 18 "up 100% sure, 100%x" = Some c /\ RegExp.isWordChar c = true.
Proof.
  assert (H : RegExp.exec rule100 "up 100% sure, 100%x" = Some (14, 18))
    by (vm_compute; reflexivity).
  split; [exact H |].
  exact (proj1 (proj2 (proj2 (hundred_percent_needs_a_word_after _ _ _ H)))).
Defined.

End FidelityMore.

(* ================================================================= *)
(** ** Properties of the report *)

Module ReportFacts.

Import Fidelity Spec FidelityFacts Report.

Lemma join_cons2 (sep x y : string) (l : list string) :
  Js.join sep (x :: y :: l) = x ++ sep ++ Js.join sep (y :: l).
Proof. reflexivity. Qed.

(** X15.  The report opens with the verdict: its first line says PASSED
    when the score's [passed] flag is set and FAILED otherwise, whatever
    the rest of the score holds. *)
Theorem report_opens_with_verdict (score : FidelityScore) :
  exists rest,
    formatFidelityReport score
    = "# Fidelity Check: "
      ++ (if passed score then tick ++ " PASSED" else cross ++ " FAILED") ++ rest.
Proof.
  unfold formatFidelityReport. cbn [List.concat app].
  do 2 rewrite join_cons2.
  match goal with
  | |- context [Js.join Js.nl ?l] => set (J := Js.join Js.nl l)
  end.
  unfold Js.trim.
  destruct (passed score).
  - change (Js.trimStart (EmptyString ++ Js.nl
                          ++ ("# Fidelity Check: " ++ tick ++ " PASSED")
                          ++ Js.nl ++ J))
      with (("# Fidelity Check: " ++ tick ++ " PASSED") ++ (Js.nl ++ J)).
    rewrite TextFacts.trimEnd_app.
    destruct (TextFacts.isEmpty _).
    + exists EmptyString. rewrite TextFacts.append_nil_r. vm_compute. reflexivity.
    + eexists. rewrite TextFacts.append_assoc. reflexivity.
  - change (Js.trimStart (EmptyString ++ Js.nl
                          ++ ("# Fidelity Check: " ++ cross ++ " FAILED")
                          ++ Js.nl ++ J))
      with (("# Fidelity Check: " ++ cross ++ " FAILED") ++ (Js.nl ++ J)).
    rewrite TextFacts.trimEnd_app.
    destruct (TextFacts.isEmpty _).
    + exists EmptyString. rewrite TextFacts.append_nil_r. vm_compute. reflexivity.
    + eexists. rewrite TextFacts.append_assoc. reflexivity.
Qed.

(** X16.  In the report of a computed score the marks add up to the
    headings: the rows of the table of required markers that are ticked
    number [mustIncludeScore], and those of the table of recommended
    markers number [shouldIncludeScore]. *)
Theorem report_marks_add_up (t : string) :
  let s := calculateFidelityScore t in
  countTrue (map (fun row => snd (fst row)) (mustRows s)) = mustIncludeScore s
  /\ countTrue (map snd (shouldRows s)) = shouldIncludeScore s.
Proof.
  intros s.
  destruct (found_is_triggered t) as (H1 & H2 & H3 & H4 & H5 & H6 & _).
  split.
  - unfold mustRows. cbn [map fst snd]. rewrite countTrue_howMany.
    unfold s. rewrite H1, H2, H3, H4, H5. symmetry. apply mustIncludeScore_eq.
  - unfold shouldRows. cbn [map fst snd]. rewrite countTrue_howMany.
    unfold s. rewrite H2, H5, H6. symmetry. apply shouldIncludeScore_eq.
Qed.

End ReportFacts.

(* ================================================================= *)
(** ** Properties of the assessments *)

Module FrameworkFacts.

Import Frameworks Spec.
Import Types(ConfidenceLevel, high, medium, low, uncertain).

(** The job statement counts: it has more than 20 characters. *)
Definition jobStated (a : JTBDAnalysis) : bool := 20 <? length (job a).

(** The eight criteria that count one point each. *)
Definition criteria (a : JTBDAnalysis) : list bool :=
  [ CaseStudyFlow.truthy (functional (dimensions a));
    CaseStudyFlow.truthy (emotional (dimensions a));
    CaseStudyFlow.truthy (social (dimensions a));
    CaseStudyFlow.truthy (c_situation (circumstance a));
    CaseStudyFlow.truthy (trigger (circumstance a));
    0 <? List.length (firingFrom a);
    0 <? List.length (firingRisks a);
    0 <? List.length (underservedSegments a) ].

Definition points (a : JTBDAnalysis) : nat :=
  (if jobStated a then 2 else 0) + howMany (criteria a).

Definition grade (n : nat) : ConfidenceLevel :=
  if 9 <=? n then high
  else if 6 <=? n then medium
  else if 3 <=? n then low
  else uncertain.

Lemma assess_points (a : JTBDAnalysis) : assessJTBDConfidence a = grade (points a).
Proof.
  unfold assessJTBDConfidence, points, jobStated, criteria, addIf.
  destruct (20 <? length (job a));
    destruct (CaseStudyFlow.truthy (functional (dimensions a)));
    destruct (CaseStudyFlow.truthy (emotional (dimensions a)));
    destruct (CaseStudyFlow.truthy (social (dimensions a)));
    destruct (CaseStudyFlow.truthy (c_situation (circumstance a)));
    destruct (CaseStudyFlow.truthy (trigger (circumstance a)));
    destruct (0 <? List.length (firingFrom a));
    destruct (0 <? List.length (firingRisks a));
    destruct (0 <? List.length (underservedSegments a)); reflexivity.
Qed.

Lemma criteria_bound (a : JTBDAnalysis) : howMany (criteria a) <= 8.
Proof. apply (FidelityFacts.howMany_le (criteria a)). Qed.

(** X17.  The confidence of a JTBD analysis is high exactly when the job
    statement has more than 20 characters and at least seven of the eight
    other criteria are met; with a job statement of 20 characters or fewer
    the confidence is never high, however complete the rest. *)
Theorem high_confidence_needs_the_job (a : JTBDAnalysis) :
  (assessJTBDConfidence a = high <->
   20 < length (job a) /\ 7 <= howMany (criteria a))
  /\ (length (job a) <= 20 -> assessJTBDConfidence a <> high).
Proof.
  rewrite assess_points. unfold points, grade, jobStated.
  pose proof (criteria_bound a) as Hb.
  destruct (Nat.ltb_spec 20 (length (job a))) as [Hj | Hj];
    repeat match goal with
           | |- context [?x <=? ?y] => destruct (Nat.leb_spec x y)
           end;
    (split; [split; [intros Xh | intros [X1 X2]] | intros X1 Xh]);
    try discriminate; try lia; auto.
Qed.

Lemma high_confidence_needs_the_job_witness :
  assessJTBDConfidence
    {| job := "short job";
       dimensions := {| functional := "f"; emotional := "e"; social := "s" |};
       circumstance := {| c_situation := "c"; trigger := "t"; c_constraints := [] |};
       firingFrom := ["a"]; firingRisks := ["b"]; underservedSegments := ["c"];
       openQuestions := []; j_confidence := uncertain |} <> high.
Proof.
  apply (proj2 (high_confidence_needs_the_job _)). simpl. lia.
Defined.

Lemma howMany_monotone (xs ys : list bool) :
  Forall2 (fun x y => x = true -> y = true) xs ys -> howMany xs <= howMany ys.
Proof.
  induction 1 as [| x y xs ys Hxy _ IH]; simpl; [lia |].
  destruct x, y; simpl; try lia; discriminate (Hxy eq_refl).
Qed.

Lemma grade_monotone (n m : nat) :
  n <= m -> (Disruption.order (grade m) <= Disruption.order (grade n))%Z.
Proof.
  unfold grade. intros H.
  repeat match goal with
         | |- context [?x <=? ?y] => destruct (Nat.leb_spec x y)
         end; simpl; lia.
Qed.

(** X18.  Completing an analysis never lowers its confidence: when every
    criterion met by one analysis is met by another, the other's
    confidence is at least as high. *)
Theorem confidence_is_monotone (a b : JTBDAnalysis) :
  (jobStated a = true -> jobStated b = true) ->
  Forall2 (fun x y => x = true -> y = true) (criteria a) (criteria b) ->
  (Disruption.order (assessJTBDConfidence b)
   <= Disruption.order (assessJTBDConfidence a))%Z.
Proof.
  intros Hj Hc. rewrite !assess_points. apply grade_monotone.
  unfold points. apply howMany_monotone in Hc.
  destruct (jobStated a), (jobStated b); try lia;
    discriminate (Hj eq_refl).
Qed.

Lemma confidence_is_monotone_witness :
  let fuller :=
    {| job := "Get breakfast on a long commute";
       dimensions := {| functional := "f"; emotional := EmptyString; social := EmptyString |};
       circumstance := {| c_situation := EmptyString; trigger := EmptyString;
                          c_constraints := [] |};
       firingFrom := []; firingRisks := []; underservedSegments := [];
       openQuestions := []; j_confidence := uncertain |} in
  (Disruption.order (assessJTBDConfidence fuller)
   <= Disruption.order (assessJTBDConfidence createEmptyJTBDAnalysis))%Z.
Proof.
  intros fuller. apply confidence_is_monotone.
  - vm_compute. discriminate.
  - vm_compute. repeat constructor; discriminate.
Defined.

(** X19.  No layer is named the primary blocker exactly when the
    priorities are not misaligned, no process hinders, and no resource is
    missing or the resources are not of low flexibility; the empty
    analysis, which records no blocker, is such a case. *)
Theorem no_blocker_iff (a : CPPAnalysis) :
  (identifyPrimaryBlocker a = blocker_none <->
   alignment (priorities a) <> misaligned
   /\ hindering (processes a) = []
   /\ (missing (resources a) = [] \/ flexibility (resources a) <> deg_low))
  /\ identifyPrimaryBlocker createEmptyCPPAnalysis
     = primaryBlocker (overallAssessment createEmptyCPPAnalysis).
Proof.
  split; [| reflexivity].
  unfold identifyPrimaryBlocker.
  destruct (alignment (priorities a)); cbn [isMisaligned];
    destruct (rigidity (processes a)); cbn [isHigh andb];
    destruct (hindering (processes a)) as [| h hs];
    destruct (supporting (processes a)) as [| p ps];
    destruct (missing (resources a)) as [| r rs];
    destruct (flexibility (resources a)); cbn [isLow andb List.length Nat.ltb Nat.leb];
    repeat match goal with
           | |- context [if ?c then _ else _] => destruct c
           end;
    (split; [intros X; try discriminate X; repeat split; try discriminate;
             try (left; reflexivity); try (right; discriminate)
            | intros (X1 & X2 & [X3 | X3]); try discriminate; try congruence;
              try reflexivity]).
Qed.

End FrameworkFacts.

(* ================================================================= *)
(** ** Rules that are plain phrases *)

Module PhraseFacts.

Import RegExp RegExpFacts.








Lemma toLowerCase_length (a : string) : length (Js.toLowerCase a) = length a.
Proof. induction a as [| c a IH]; simpl; [reflexivity | now rewrite IH]. Qed.



Section Complete.

Variable ic : bool.
Variable input : string.




End Complete.






Import Fidelity Spec.


End PhraseFacts.
